(** * Use-case persistence gateway: normalization adapter and CRUD operations

    A shallow embedding of [src/api/usecases.ts], and of the state updates
    of the components that show its use cases ([home.tsx], [hero.tsx] and
    [UseCasesSection.tsx]).

    - JavaScript values are the inductive type [JsValue]; the conversion
      [String(v)], truthiness and [String.prototype.trim] are written out.
    - A function that can raise returns a [Result]; [try]/[catch] is
      [try_catch].
    - The browser's [localStorage] entry ["usecases"] holds a JSON array of
      objects; it is modelled by its decoded content, a list of [UseCase]
      objects, threaded through the operations ([Gateway] is a
      state-and-exception monad over it).
    - The remote store is seen through the replies of its client
      ([SupabaseClient]); the backend flag and the clock are inputs of each
      operation.
    - A character of a [string] stands for the code unit of the same number.
    - [console.log] traces and the simulated network delay have no effect on
      results and are left out; the operations run to completion one after
      the other. *)

From Stdlib Require Import ZArith String Ascii.
From stdpp Require Import base option list strings pretty.

Set Warnings "-register-all".
Open Scope string_scope.

(** ** JavaScript values *)

(** The values the gateway meets: what [JSON.parse] can produce, plus
    [undefined]. Numbers are the integer-valued ones that [String] prints in
    decimal (those below 10^21 in absolute value). An object is the list of
    its own properties; none of these values is callable. *)
Inductive JsValue : Type :=
| JNull
| JUndefined
| JBool (b : bool)
| JNum (n : Z)
| JStr (s : string)
| JArr (items : list JsValue)
| JObj (props : list (string * JsValue)).

(** A thrown value: an instance of [Error] with its message, or any other
    thrown object (the remote client's error object, rethrown as it is). *)
Inductive Exn : Type :=
| Error (message : string)
| Thrown (message : string).

Inductive Result (A : Type) : Type :=
| Ok (a : A)
| Throw (e : Exn).
Arguments Ok {A} a.
Arguments Throw {A} e.

Definition exn_message (e : Exn) : string :=
  match e with Error m => m | Thrown m => m end.

#[export] Instance Result_ret : MRet Result := fun _ a => Ok a.
#[export] Instance Result_bind : MBind Result := fun _ _ k m =>
  match m with Ok a => k a | Throw e => Throw e end.
#[export] Instance Result_fmap : FMap Result := fun _ _ f m =>
  match m with Ok a => Ok (f a) | Throw e => Throw e end.

(** [try { body } catch (e) { handler e }] *)
Definition try_catch {A} (body : Result A) (handler : Exn -> Result A) : Result A :=
  match body with Ok a => Ok a | Throw e => handler e end.

(** JavaScript truthiness ([Boolean(v)], [!v], [a || b]). *)
Definition truthy (v : JsValue) : bool :=
  match v with
  | JNull | JUndefined => false
  | JBool b => b
  | JNum n => negb (n =? 0)%Z
  | JStr s => negb (String.eqb s "")
  | JArr _ | JObj _ => true
  end.

(** [a || b] *)
Definition js_or (a b : JsValue) : JsValue := if truthy a then a else b.

Definition has_own_property (key : string) (props : list (string * JsValue)) : bool :=
  existsb (fun kv => String.eqb (fst kv) key) props.

(** [String(v)]. An array is joined with commas, [null] and [undefined]
    elements printing as nothing. An ordinary object prints through
    [Object.prototype.toString]; when it has an own property [toString], which
    cannot be callable here, the conversion raises a [TypeError]. *)
Fixpoint js_String (v : JsValue) : Result string :=
  match v with
  | JNull => Ok "null"
  | JUndefined => Ok "undefined"
  | JBool true => Ok "true"
  | JBool false => Ok "false"
  | JNum n => Ok (pretty n)
  | JStr s => Ok s
  | JArr items =>
      match
        (fix join_items (l : list JsValue) : Result (list string) :=
           match l with
           | [] => Ok []
           | x :: rest =>
               match
                 match x with
                 | JNull | JUndefined => Ok ""
                 | _ => js_String x
                 end
               with
               | Ok s =>
                   match join_items rest with
                   | Ok ss => Ok (s :: ss)
                   | Throw e => Throw e
                   end
               | Throw e => Throw e
               end
           end) items
      with
      | Ok ss => Ok (String.concat "," ss)
      | Throw e => Throw e
      end
  | JObj props =>
      if has_own_property "toString" props
      then Throw (Error "Cannot convert object to primitive value")
      else Ok "[object Object]"
  end.

(** The strings [Array.prototype.join] collects. *)
Fixpoint join_items (l : list JsValue) : Result (list string) :=
  match l with
  | [] => Ok []
  | x :: rest =>
      s ← match x with JNull | JUndefined => Ok "" | _ => js_String x end;
      ss ← join_items rest;
      Ok (s :: ss)
  end.

(** [items.map((item) => String(item))] *)
Definition map_String (items : list JsValue) : Result (list string) :=
  mapM js_String items.

(** ** Strings *)

(** White space removed by [trim], among the characters a [string] holds:
    tab, line feed, vertical tab, form feed, carriage return, space and the
    no-break space. *)
Definition is_white_space (c : ascii) : bool :=
  let n := nat_of_ascii c in
  (Nat.leb 9 n && Nat.leb n 13) || Nat.eqb n 32 || Nat.eqb n 160.

Fixpoint trimStart (s : string) : string :=
  match s with
  | String c rest => if is_white_space c then trimStart rest else s
  | EmptyString => EmptyString
  end.

Definition trimEnd (s : string) : string :=
  String.rev (trimStart (String.rev s)).

Definition trim (s : string) : string := trimEnd (trimStart s).

Definition startsWith (s prefix : string) : bool := String.prefix prefix s.

Definition endsWith (s suffix : string) : bool :=
  String.prefix (String.rev suffix) (String.rev s).

(** ** Normalization adapter *)

(** [JSON.parse], a built-in of the platform: the adapter is verified for
    every parser. *)
Class JsonParser := JSON_parse : string -> Result JsValue.

(** [debugValue] only logs; of what it evaluates, the entry
    [toString: String(value)] can raise. *)
Definition debugValue (label : string) (value : JsValue) : Result unit :=
  _ ← js_String value; Ok tt.

Section Normalization.
Context {parser : JsonParser}.

(** The [try] block of [safeEnsureArray]. *)
Definition safeEnsureArray_try (value : JsValue) (fieldName : string)
  : Result (list string) :=
  _ ← debugValue ("safeEnsureArray input (" ++ fieldName ++ ")") value;
  match value with
  | JNull | JUndefined => Ok []
  | JArr items => map_String items
  | JStr s =>
      if startsWith (trim s) "[" && endsWith (trim s) "]" then
        try_catch
          (parsed ← JSON_parse s;
           match parsed with
           | JArr items => map_String items
           | _ => str ← js_String value; Ok [str]
           end)
          (fun _ => Ok [s])
      else Ok [s]
  | JObj _ => str ← js_String value; Ok [str]
  | _ => str ← js_String value; Ok [str]
  end.

Definition safeEnsureArray (value : JsValue) (fieldName : string)
  : Result (list string) :=
  try_catch (safeEnsureArray_try value fieldName) (fun _ => Ok []).

Definition ensureArray (value : JsValue) : Result (list string) :=
  safeEnsureArray value "unknown".

End Normalization.

(** ** A reference JSON parser

    An executable [JsonParser] for the examples: JSON texts whose numbers are
    integers and whose strings use the short escapes. Any other text is a
    syntax error. *)
Module Json.

Definition syntax_error : Exn := Error "Unexpected token in JSON".

Definition is_json_space (c : ascii) : bool :=
  let n := nat_of_ascii c in
  Nat.eqb n 32 || Nat.eqb n 9 || Nat.eqb n 10 || Nat.eqb n 13.

Fixpoint skip_space (s : string) : string :=
  match s with
  | String c rest => if is_json_space c then skip_space rest else s
  | EmptyString => EmptyString
  end.

Definition is_digit (c : ascii) : bool :=
  let n := nat_of_ascii c in Nat.leb 48 n && Nat.leb n 57.

Definition unescape (c : ascii) : option ascii :=
  match c with
  | "034"%char => Some "034"%char
  | "\"%char => Some "\"%char
  | "/"%char => Some "/"%char
  | "b"%char => Some (ascii_of_nat 8)
  | "f"%char => Some (ascii_of_nat 12)
  | "n"%char => Some (ascii_of_nat 10)
  | "r"%char => Some (ascii_of_nat 13)
  | "t"%char => Some (ascii_of_nat 9)
  | _ => None
  end.

(** The characters of a string literal, after its opening quote. *)
Fixpoint string_literal (s : string) : option (string * string) :=
  match s with
  | EmptyString => None
  | String "034" rest => Some (EmptyString, rest)
  | String "\" (String c rest) =>
      c' ← unescape c;
      '(body, rest') ← string_literal rest;
      Some (String c' body, rest')
  | String c rest =>
      if Nat.ltb (nat_of_ascii c) 32 then None
      else '(body, rest') ← string_literal rest; Some (String c body, rest')
  end.

Fixpoint digits (s : string) (acc : Z) : Z * string :=
  match s with
  | String c rest =>
      if is_digit c
      then digits rest (10 * acc + Z.of_nat (nat_of_ascii c - 48))%Z
      else (acc, s)
  | EmptyString => (acc, s)
  end.

Definition ends_number (s : string) : bool :=
  match s with
  | String c _ =>
      negb (is_digit c || Ascii.eqb c "." || Ascii.eqb c "e" || Ascii.eqb c "E")
  | EmptyString => true
  end.

Definition natural (s : string) : option (Z * string) :=
  match s with
  | String "0" rest => if ends_number rest then Some (0%Z, rest) else None
  | String c _ =>
      if is_digit c
      then let '(n, rest) := digits s 0%Z in
           if ends_number rest then Some (n, rest) else None
      else None
  | EmptyString => None
  end.

Definition keyword (word : string) (v : JsValue) (s : string)
  : option (JsValue * string) :=
  if String.prefix word s
  then Some (v, String.substring (String.length word)
                  (String.length s - String.length word) s)
  else None.

Fixpoint value (fuel : nat) (s : string) : option (JsValue * string) :=
  match fuel with
  | O => None
  | S fuel =>
      match s with
      | String "n" _ => keyword "null" JNull s
      | String "t" _ => keyword "true" (JBool true) s
      | String "f" _ => keyword "false" (JBool false) s
      | String "034" rest =>
          '(str, rest') ← string_literal rest; Some (JStr str, rest')
      | String "-" rest =>
          '(n, rest') ← natural rest; Some (JNum (- n)%Z, rest')
      | String "[" rest =>
          match skip_space rest with
          | String "]" rest' => Some (JArr [], rest')
          | rest' => '(items, rest'') ← elements fuel rest'; Some (JArr items, rest'')
          end
      | String "{" rest =>
          match skip_space rest with
          | String "}" rest' => Some (JObj [], rest')
          | rest' => '(props, rest'') ← members fuel rest'; Some (JObj props, rest'')
          end
      | _ => '(n, rest) ← natural s; Some (JNum n, rest)
      end
  end
with elements (fuel : nat) (s : string) : option (list JsValue * string) :=
  match fuel with
  | O => None
  | S fuel =>
      '(v, rest) ← value fuel s;
      match skip_space rest with
      | String "]" rest' => Some ([v], rest')
      | String "," rest' =>
          '(vs, rest'') ← elements fuel (skip_space rest'); Some (v :: vs, rest'')
      | _ => None
      end
  end
with members (fuel : nat) (s : string)
  : option (list (string * JsValue) * string) :=
  match fuel with
  | O => None
  | S fuel =>
      match s with
      | String "034" rest =>
          '(key, rest) ← string_literal rest;
          match skip_space rest with
          | String ":" rest =>
              '(v, rest) ← value fuel (skip_space rest);
              match skip_space rest with
              | String "}" rest' => Some ([(key, v)], rest')
              | String "," rest' =>
                  '(kvs, rest'') ← members fuel (skip_space rest');
                  Some ((key, v) :: kvs, rest'')
              | _ => None
              end
          | _ => None
          end
      | _ => None
      end
  end.

Definition parse (s : string) : Result JsValue :=
  match value (S (String.length s)) (skip_space s) with
  | Some (v, rest) =>
      match skip_space rest with
      | EmptyString => Ok v
      | _ => Throw syntax_error
      end
  | None => Throw syntax_error
  end.

End Json.



(** ** Data model *)

(** [interface UseCase]. The fields hold what is there at run time: objects
    read back from storage are only cast to the interface. *)
Module UseCase.
Record t : Type := Build {
  id : JsValue;
  title : JsValue;
  description : JsValue;
  content : JsValue;
  industry : JsValue;
  category : JsValue;
  industries : JsValue;
  categories : JsValue;
  imageUrl : JsValue;
  status : JsValue;
  createdAt : JsValue;
  updatedAt : JsValue
}.
End UseCase.

(** [interface UseCaseFormData]; the two list fields are what
    [safeEnsureArray] receives, a value of any type. *)
Module UseCaseFormData.
Record t : Type := Build {
  title : string;
  description : string;
  content : string;
  industries : JsValue;
  categories : JsValue;
  imageUrl : string;
  status : string
}.
End UseCaseFormData.

(** [Partial<UseCaseFormData>]: an omitted text field is [None], an omitted
    list field is [JUndefined]. *)
Module PartialFormData.
Record t : Type := Build {
  title : option string;
  description : option string;
  content : option string;
  industries : JsValue;
  categories : JsValue;
  imageUrl : option string;
  status : option string
}.
End PartialFormData.

(** A row of the remote table [usecases], as the client returns it. *)
Module DbRow.
Record t : Type := Build {
  id : JsValue;
  title : JsValue;
  description : JsValue;
  content : JsValue;
  industry : JsValue;
  category : JsValue;
  industries : JsValue;
  categories : JsValue;
  image_url : JsValue;
  status : JsValue;
  created_at : JsValue;
  updated_at : JsValue
}.
End DbRow.

(** [dbData], the object [createUseCase] inserts. *)
Module DbInsert.
Record t : Type := Build {
  title : string;
  description : string;
  content : string;
  industry : string;
  category : string;
  industries : list string;
  categories : list string;
  image_url : string;
  status : string;
  created_at : string;
  updated_at : string
}.
End DbInsert.

(** [updateData], the object [updateUseCase] sends: only the keys that were
    assigned are present. *)
Module DbUpdate.
Record t : Type := Build {
  updated_at : string;
  title : option string;
  description : option string;
  content : option string;
  industries : option (list string);
  industry : option string;
  categories : option (list string);
  category : option string;
  image_url : option string;
  status : option string
}.
End DbUpdate.

(** The [{ data, error }] pair a query resolves to; [error] is the message of
    the client's error object. *)
Module Reply.
Record t (A : Type) : Type := Build {
  data : option A;
  error : option string
}.
Arguments Build {A} data error.
Arguments data {A} _.
Arguments error {A} _.
End Reply.

(** The remote store, as far as the gateway sees it: the reply to each of the
    five queries it sends to the table [usecases]. *)
Record SupabaseClient : Type := {
  (** [.select("*").order("created_at", { ascending: false })] *)
  select_all : Reply.t (list DbRow.t);
  (** [.select("*").eq("id", id).single()] *)
  select_single : string -> Reply.t DbRow.t;
  (** [.insert(dbData).select("*").single()] *)
  insert_single : DbInsert.t -> Reply.t DbRow.t;
  (** [.update(updateData).eq("id", id).select("*").single()] *)
  update_single : DbUpdate.t -> string -> Reply.t DbRow.t;
  (** [.delete().eq("id", id)] *)
  delete_eq : string -> option string
}.

(** ** The gateway monad *)

(** The decoded content of the [localStorage] entry ["usecases"]. *)
Definition LocalStore : Type := list UseCase.t.

Definition Gateway (A : Type) : Type := LocalStore -> Result A * LocalStore.

#[export] Instance Gateway_ret : MRet Gateway := fun _ a store => (Ok a, store).
#[export] Instance Gateway_bind : MBind Gateway := fun _ _ k m store =>
  match m store with
  | (Ok a, store') => k a store'
  | (Throw e, store') => (Throw e, store')
  end.

#[export] Instance Gateway_fmap : FMap Gateway := fun _ _ f m store =>
  match m store with
  | (Ok a, store') => (Ok (f a), store')
  | (Throw e, store') => (Throw e, store')
  end.

Definition throw {A} (e : Exn) : Gateway A := fun store => (Throw e, store).

Definition lift {A} (r : Result A) : Gateway A := fun store => (r, store).

(** [JSON.parse(localStorage.getItem(USECASES_STORAGE_KEY) || "[]")] *)
Definition getItem : Gateway (list UseCase.t) := fun store => (Ok store, store).

(** [localStorage.setItem(USECASES_STORAGE_KEY, JSON.stringify(useCases))] *)
Definition setItem (useCases : list UseCase.t) : Gateway unit :=
  fun _ => (Ok tt, useCases).

Definition gateway_catch {A} (body : Gateway A) (handler : Exn -> Gateway A)
  : Gateway A :=
  fun store =>
    match body store with
    | (Ok a, store') => (Ok a, store')
    | (Throw e, store') => handler e store'
    end.

(** [v === s] for a string [s] *)
Definition strict_eq_string (v : JsValue) (s : string) : bool :=
  match v with JStr t => String.eqb t s | _ => false end.

(** A [string[]] as an array of values, and as a value. *)
Definition strings_of (l : list string) : list JsValue := JStr <$> l.
Definition strings (l : list string) : JsValue := JArr (strings_of l).

(** [a.length > 0 ? a[0] : otherwise] *)
Definition first_or {A} (otherwise : A) (a : list A) : A :=
  if Nat.ltb 0 (length a) then match a with x :: _ => x | [] => otherwise end
  else otherwise.

(** Reading a property of [null] raises a [TypeError]. *)
Definition null_property_error (prop : string) : Exn :=
  Error ("Cannot read properties of null (reading '" ++ prop ++ "')").

(** [a || b] on strings *)
Definition string_or (a b : string) : string :=
  if String.eqb a "" then b else a.

(** [v !== undefined] *)
Definition is_defined (v : JsValue) : bool :=
  match v with JUndefined => false | _ => true end.

(** [supplied !== undefined ? supplied : previous] *)
Definition supplied_or (supplied : option string) (previous : JsValue) : JsValue :=
  match supplied with Some s => JStr s | None => previous end.

(** [error instanceof Error ? error.message : otherwise] *)
Definition message_or (error : Exn) (otherwise : string) : string :=
  match error with Error m => m | Thrown _ => otherwise end.

Definition placeholder_image : string :=
  "https://images.unsplash.com/photo-1579546929518-9e396f3cc809?w=800&q=80".

(** ** CRUD operations *)

Section Operations.
Context {parser : JsonParser}.
(** [useLocalStorageFallback()], evaluated once per call. *)
Variable useLocalStorageFallback : bool.
Variable supabase : SupabaseClient.
(** [new Date().toISOString()] and [Date.now()] at the call. *)
Variable Date_toISOString : string.
Variable Date_now : Z.

(** The fallback chain shared by the local reads:
    [a.length > 0 ? a : [scalar].filter(Boolean)] *)
Definition or_legacy (a : list string) (scalar : JsValue) : JsValue :=
  if Nat.ltb 0 (length a) then strings a
  else JArr (List.filter truthy [scalar]).

(** The object built for each stored use case by [getUseCases] on the local
    backend: [{ ...useCase, industries: ..., categories: ... }]. *)
Definition normalizeStored (useCase : UseCase.t) : Result UseCase.t :=
  industriesLen ← ensureArray (UseCase.industries useCase);
  industriesVal ←
    (if Nat.ltb 0 (length industriesLen)
     then strings <$> ensureArray (UseCase.industries useCase)
     else Ok (JArr (List.filter truthy [UseCase.industry useCase])));
  categoriesLen ← ensureArray (UseCase.categories useCase);
  categoriesVal ←
    (if Nat.ltb 0 (length categoriesLen)
     then strings <$> ensureArray (UseCase.categories useCase)
     else Ok (JArr (List.filter truthy [UseCase.category useCase])));
  Ok (UseCase.Build
        (UseCase.id useCase) (UseCase.title useCase)
        (UseCase.description useCase) (UseCase.content useCase)
        (UseCase.industry useCase) (UseCase.category useCase)
        industriesVal categoriesVal
        (UseCase.imageUrl useCase) (UseCase.status useCase)
        (UseCase.createdAt useCase) (UseCase.updatedAt useCase)).

(** The object built for each row by [getUseCases] on the remote backend. *)
Definition rowToListed (useCase : DbRow.t) : Result UseCase.t :=
  industries0 ←
    try_catch (strings_of <$> ensureArray (DbRow.industries useCase))
      (fun _ => Ok (if truthy (DbRow.industry useCase)
                    then [DbRow.industry useCase] else []));
  categories0 ←
    try_catch (strings_of <$> ensureArray (DbRow.categories useCase))
      (fun _ => Ok (if truthy (DbRow.category useCase)
                    then [DbRow.category useCase] else []));
  let industries :=
    if Nat.eqb (length industries0) 0 && truthy (DbRow.industry useCase)
    then [DbRow.industry useCase] else industries0 in
  let categories :=
    if Nat.eqb (length categories0) 0 && truthy (DbRow.category useCase)
    then [DbRow.category useCase] else categories0 in
  Ok (UseCase.Build
        (DbRow.id useCase) (DbRow.title useCase)
        (DbRow.description useCase) (DbRow.content useCase)
        (js_or (DbRow.industry useCase) (first_or (JStr "") industries))
        (js_or (DbRow.category useCase) (first_or (JStr "") categories))
        (JArr industries) (JArr categories)
        (DbRow.image_url useCase) (DbRow.status useCase)
        (DbRow.created_at useCase) (DbRow.updated_at useCase)).

Definition getUseCases : Gateway (list UseCase.t) :=
  gateway_catch
    (if useLocalStorageFallback then
       useCases ← getItem;
       lift (mapM normalizeStored useCases)
     else
       let reply := select_all supabase in
       match Reply.error reply with
       | Some e => throw (Thrown e)
       | None => lift (mapM rowToListed (default [] (Reply.data reply)))
       end)
    (fun _ => throw (Error "Failed to fetch use cases")).

(** The [result] object of [getUseCaseById] on the remote backend. *)
Definition rowToFetched (data : DbRow.t) : Result UseCase.t :=
  industriesArray ←
    try_catch
      (strings_of <$> safeEnsureArray (DbRow.industries data) "supabase_get_industries")
      (fun _ => Ok (if truthy (DbRow.industry data)
                    then [DbRow.industry data] else []));
  categoriesArray ←
    try_catch
      (strings_of <$> safeEnsureArray (DbRow.categories data) "supabase_get_categories")
      (fun _ => Ok (if truthy (DbRow.category data)
                    then [DbRow.category data] else []));
  Ok (UseCase.Build
        (DbRow.id data)
        (js_or (DbRow.title data) (JStr ""))
        (js_or (DbRow.description data) (JStr ""))
        (js_or (DbRow.content data) (JStr ""))
        (js_or (DbRow.industry data) (first_or (JStr "") industriesArray))
        (js_or (DbRow.category data) (first_or (JStr "") categoriesArray))
        (JArr industriesArray) (JArr categoriesArray)
        (js_or (DbRow.image_url data) (JStr ""))
        (js_or (DbRow.status data) (JStr "draft"))
        (js_or (DbRow.created_at data) (JStr Date_toISOString))
        (js_or (DbRow.updated_at data) (JStr Date_toISOString))).

Definition getUseCaseById (id : string) : Gateway (option UseCase.t) :=
  gateway_catch
    (if useLocalStorageFallback then
       useCases ← getItem;
       match list_find (fun useCase => strict_eq_string (UseCase.id useCase) id) useCases with
       | None => mret None
       | Some (_, useCase) =>
           industriesArray ←
             lift (safeEnsureArray (UseCase.industries useCase) "localstorage_get_industries");
           let finalIndustries := or_legacy industriesArray (UseCase.industry useCase) in
           categoriesArray ←
             lift (safeEnsureArray (UseCase.categories useCase) "localstorage_get_categories");
           let finalCategories := or_legacy categoriesArray (UseCase.category useCase) in
           mret (Some (UseCase.Build
                   (UseCase.id useCase) (UseCase.title useCase)
                   (UseCase.description useCase) (UseCase.content useCase)
                   (UseCase.industry useCase) (UseCase.category useCase)
                   finalIndustries finalCategories
                   (UseCase.imageUrl useCase) (UseCase.status useCase)
                   (UseCase.createdAt useCase) (UseCase.updatedAt useCase)))
       end
     else
       let reply := select_single supabase id in
       match Reply.error reply with
       | Some e => throw (Thrown e)
       | None =>
           match Reply.data reply with
           | None => mret None
           | Some row => Some <$> lift (rowToFetched row)
           end
       end)
    (fun _ => throw (Error ("Failed to fetch use case with ID " ++ id))).

Definition createUseCase (data : UseCaseFormData.t) : Gateway UseCase.t :=
  gateway_catch
    (if String.eqb (trim (UseCaseFormData.title data)) ""
     then throw (Error "Title is required")
     else if String.eqb (trim (UseCaseFormData.description data)) ""
     then throw (Error "Description is required")
     else if String.eqb (trim (UseCaseFormData.content data)) ""
     then throw (Error "Content is required")
     else
       industriesArray ←
         lift (safeEnsureArray (UseCaseFormData.industries data) "create_industries");
       if Nat.eqb (length industriesArray) 0
       then throw (Error "At least one industry is required")
       else
         categoriesArray ←
           lift (safeEnsureArray (UseCaseFormData.categories data) "create_categories");
         if Nat.eqb (length categoriesArray) 0
         then throw (Error "At least one category is required")
         else
           let imageUrl := string_or (UseCaseFormData.imageUrl data) placeholder_image in
           let now := Date_toISOString in
           if useLocalStorageFallback then
             useCases ← getItem;
             let primaryIndustry := first_or "" industriesArray in
             let primaryCategory := first_or "" categoriesArray in
             let newUseCase :=
               UseCase.Build
                 (JStr ("usecase_" ++ pretty Date_now))
                 (JStr (UseCaseFormData.title data))
                 (JStr (UseCaseFormData.description data))
                 (JStr (UseCaseFormData.content data))
                 (JStr primaryIndustry) (JStr primaryCategory)
                 (strings industriesArray) (strings categoriesArray)
                 (JStr imageUrl)
                 (JStr (UseCaseFormData.status data))
                 (JStr now) (JStr now) in
             _ ← setItem (useCases ++ [newUseCase]);
             mret newUseCase
           else
             let primaryIndustry := first_or "" industriesArray in
             let primaryCategory := first_or "" categoriesArray in
             let dbData :=
               DbInsert.Build
                 (UseCaseFormData.title data)
                 (UseCaseFormData.description data)
                 (UseCaseFormData.content data)
                 primaryIndustry primaryCategory
                 industriesArray categoriesArray
                 imageUrl (UseCaseFormData.status data) now now in
             gateway_catch
               (let reply := insert_single supabase dbData in
                match Reply.error reply with
                | Some e => throw (Error ("Failed to create use case: " ++ e))
                | None =>
                    match Reply.data reply with
                    | None => throw (null_property_error "industry")
                    | Some useCaseData =>
                        returnIndustriesArray ←
                          lift (try_catch
                                  (strings_of <$> safeEnsureArray
                                     (DbRow.industries useCaseData)
                                     "returned_create_industries")
                                  (fun _ => Ok (List.filter truthy
                                                  [DbRow.industry useCaseData])));
                        returnCategoriesArray ←
                          lift (try_catch
                                  (strings_of <$> safeEnsureArray
                                     (DbRow.categories useCaseData)
                                     "returned_create_categories")
                                  (fun _ => Ok (List.filter truthy
                                                  [DbRow.category useCaseData])));
                        mret (UseCase.Build
                                (DbRow.id useCaseData)
                                (DbRow.title useCaseData)
                                (DbRow.description useCaseData)
                                (DbRow.content useCaseData)
                                (js_or (DbRow.industry useCaseData) (JStr ""))
                                (js_or (DbRow.category useCaseData) (JStr ""))
                                (JArr returnIndustriesArray)
                                (JArr returnCategoriesArray)
                                (DbRow.image_url useCaseData)
                                (DbRow.status useCaseData)
                                (DbRow.created_at useCaseData)
                                (DbRow.updated_at useCaseData))
                    end
                end)
               (fun innerError => throw innerError))
    (fun error => throw (Error (message_or error "Failed to create use case"))).

Definition updateUseCase (id : string) (data : PartialFormData.t)
  : Gateway UseCase.t :=
  gateway_catch
    (let now := Date_toISOString in
     if useLocalStorageFallback then
       useCases ← getItem;
       match list_find (fun useCase => strict_eq_string (UseCase.id useCase) id) useCases with
       | None => throw (Error ("Use case with ID " ++ id ++ " not found"))
       | Some (useCaseIndex, useCase) =>
           existingIndustries ←
             lift (safeEnsureArray (js_or (UseCase.industries useCase) (JArr []))
                     "existing_industries");
           industriesArray ←
             (if is_defined (PartialFormData.industries data)
              then lift (safeEnsureArray (PartialFormData.industries data) "new_industries")
              else mret existingIndustries);
           existingCategories ←
             lift (safeEnsureArray (js_or (UseCase.categories useCase) (JArr []))
                     "existing_categories");
           categoriesArray ←
             (if is_defined (PartialFormData.categories data)
              then lift (safeEnsureArray (PartialFormData.categories data) "new_categories")
              else mret existingCategories);
           let primaryIndustry := first_or "" industriesArray in
           let primaryCategory := first_or "" categoriesArray in
           let updatedUseCase :=
             UseCase.Build
               (UseCase.id useCase)
               (supplied_or (PartialFormData.title data) (UseCase.title useCase))
               (supplied_or (PartialFormData.description data) (UseCase.description useCase))
               (supplied_or (PartialFormData.content data) (UseCase.content useCase))
               (JStr primaryIndustry) (JStr primaryCategory)
               (strings industriesArray) (strings categoriesArray)
               (supplied_or (PartialFormData.imageUrl data) (UseCase.imageUrl useCase))
               (supplied_or (PartialFormData.status data) (UseCase.status useCase))
               (UseCase.createdAt useCase)
               (JStr now) in
           _ ← setItem (<[useCaseIndex := updatedUseCase]> useCases);
           mret updatedUseCase
       end
     else
       newIndustries ←
         (if is_defined (PartialFormData.industries data)
          then Some <$> lift (safeEnsureArray (PartialFormData.industries data)
                                "industries_to_update")
          else mret None);
       newCategories ←
         (if is_defined (PartialFormData.categories data)
          then Some <$> lift (safeEnsureArray (PartialFormData.categories data)
                                "categories_to_update")
          else mret None);
       (* the assignments to [updateData] sit in [try] blocks of their own,
          whose [catch] is never entered: an assignment does not raise *)
       let updateData :=
         DbUpdate.Build now
           (PartialFormData.title data)
           (PartialFormData.description data)
           (PartialFormData.content data)
           newIndustries (first_or "" <$> newIndustries)
           newCategories (first_or "" <$> newCategories)
           (PartialFormData.imageUrl data)
           (PartialFormData.status data) in
       let reply := update_single supabase updateData id in
       match Reply.error reply with
       | Some e => throw (Error ("Failed to update use case: " ++ e))
       | None =>
           match Reply.data reply with
           | None => throw (null_property_error "industry")
           | Some useCaseData =>
               industriesArray ←
                 lift (try_catch
                         (strings_of <$> safeEnsureArray
                            (DbRow.industries useCaseData) "returned_industries")
                         (fun _ => Ok (if truthy (DbRow.industry useCaseData)
                                       then [DbRow.industry useCaseData] else [])));
               categoriesArray ←
                 lift (try_catch
                         (strings_of <$> safeEnsureArray
                            (DbRow.categories useCaseData) "returned_categories")
                         (fun _ => Ok (if truthy (DbRow.category useCaseData)
                                       then [DbRow.category useCaseData] else [])));
               mret (UseCase.Build
                       (DbRow.id useCaseData)
                       (js_or (DbRow.title useCaseData) (JStr ""))
                       (js_or (DbRow.description useCaseData) (JStr ""))
                       (js_or (DbRow.content useCaseData) (JStr ""))
                       (js_or (DbRow.industry useCaseData) (JStr ""))
                       (js_or (DbRow.category useCaseData) (JStr ""))
                       (JArr industriesArray) (JArr categoriesArray)
                       (js_or (DbRow.image_url useCaseData) (JStr ""))
                       (js_or (DbRow.status useCaseData) (JStr "draft"))
                       (js_or (DbRow.created_at useCaseData) (JStr now))
                       (js_or (DbRow.updated_at useCaseData) (JStr now)))
           end
       end)
    (fun error =>
       throw (Error (message_or error ("Failed to update use case with ID " ++ id)))).

Definition deleteUseCase (id : string) : Gateway unit :=
  gateway_catch
    (if useLocalStorageFallback then
       useCases ← getItem;
       let updatedUseCases :=
         List.filter (fun useCase => negb (strict_eq_string (UseCase.id useCase) id))
           useCases in
       if Nat.eqb (length useCases) (length updatedUseCases)
       then throw (Error ("Use case with ID " ++ id ++ " not found"))
       else setItem updatedUseCases
     else
       match delete_eq supabase id with
       | Some e => throw (Error ("Failed to delete use case: " ++ e))
       | None => mret tt
       end)
    (fun _ => throw (Error ("Failed to delete use case with ID " ++ id))).

End Operations.

(** ** Notions used in the statements *)

(** The reference parser is the [JsonParser] of the closed examples. *)
Definition reference_parser : JsonParser := Json.parse.

(** A string between double quotes, as it stands in a JSON text. *)
Definition quoted (s : string) : string := String "034" (s ++ String "034" "").

(** A remote store that fails every query. *)
Definition unreachable_store : SupabaseClient :=
  {| select_all := Reply.Build None (Some "network error");
     select_single := fun _ => Reply.Build None (Some "network error");
     insert_single := fun _ => Reply.Build None (Some "network error");
     update_single := fun _ _ => Reply.Build None (Some "network error");
     delete_eq := fun _ => Some "network error" |}.

(** The fields [createUseCase] requires, in the order it checks them, and
    the message of the error raised for each. *)
Inductive RequiredField : Type :=
| TitleField
| DescriptionField
| ContentField
| IndustriesField
| CategoriesField.

Definition required_message (f : RequiredField) : string :=
  match f with
  | TitleField => "Title is required"
  | DescriptionField => "Description is required"
  | ContentField => "Content is required"
  | IndustriesField => "At least one industry is required"
  | CategoriesField => "At least one category is required"
  end.

(** The position of a field in the order of the checks. *)
Definition field_rank (f : RequiredField) : nat :=
  match f with
  | TitleField => 0
  | DescriptionField => 1
  | ContentField => 2
  | IndustriesField => 3
  | CategoriesField => 4
  end.

(** The first stored use case whose [id] is [id], with its index: what
    [useCases.find] and [useCases.findIndex] look for. *)
Definition find_by_id (id : string) (store : LocalStore) : option (nat * UseCase.t) :=
  list_find (fun useCase => strict_eq_string (UseCase.id useCase) id) store.

(** The stored use cases [deleteUseCase] keeps. *)
Definition without_id (id : string) (store : LocalStore) : LocalStore :=
  List.filter (fun useCase => negb (strict_eq_string (UseCase.id useCase) id)) store.

(** The derived scalar is the first element of its list, or the empty string
    when the list is empty. *)
Definition primary_of (scalar list_field : JsValue) : Prop :=
  exists l : list JsValue, list_field = JArr l /\ scalar = first_or (JStr "") l.

(** [industry == industries[0]] and [category == categories[0]]. *)
Definition primary_fields_consistent (u : UseCase.t) : Prop :=
  primary_of (UseCase.industry u) (UseCase.industries u) /\
  primary_of (UseCase.category u) (UseCase.categories u).

(** The shape [createUseCase] and [updateUseCase] give to the records they
    store: string lists, each with its first element as the scalar. *)
Definition written_record (u : UseCase.t) : Prop :=
  exists li lc : list string,
    UseCase.industries u = strings li /\
    UseCase.industry u = JStr (first_or "" li) /\
    UseCase.categories u = strings lc /\
    UseCase.category u = JStr (first_or "" lc).

Section Notions.
Context {parser : JsonParser}.

(** What [safeEnsureArray] returns, as a list. *)
Definition normalized (value : JsValue) : list string :=
  match ensureArray value with Ok l => l | Throw _ => [] end.

(** [f] is missing from the form: empty after trimming, or a list that
    normalizes to the empty list. *)
Definition offending (data : UseCaseFormData.t) (f : RequiredField) : Prop :=
  match f with
  | TitleField => trim (UseCaseFormData.title data) = ""
  | DescriptionField => trim (UseCaseFormData.description data) = ""
  | ContentField => trim (UseCaseFormData.content data) = ""
  | IndustriesField => normalized (UseCaseFormData.industries data) = []
  | CategoriesField => normalized (UseCaseFormData.categories data) = []
  end.

(** The scalar columns of a row agree with its normalized list columns. *)
Definition consistent_row (row : DbRow.t) : Prop :=
  DbRow.industry row = JStr (first_or "" (normalized (DbRow.industries row))) /\
  DbRow.category row = JStr (first_or "" (normalized (DbRow.categories row))).

(** The local stores the gateway builds from the empty list it starts
    from, by its own [createUseCase], [updateUseCase] and [deleteUseCase]. *)
Inductive gateway_written : LocalStore -> Prop :=
| written_initial : gateway_written []
| written_create supabase iso now data store r store' :
    gateway_written store ->
    createUseCase true supabase iso now data store = (r, store') ->
    gateway_written store'
| written_update supabase iso id data store r store' :
    gateway_written store ->
    updateUseCase true supabase iso id data store = (r, store') ->
    gateway_written store'
| written_delete supabase id store r store' :
    gateway_written store ->
    deleteUseCase true supabase id store = (r, store') ->
    gateway_written store'.

End Notions.

(** ** Sample data for the closed examples *)

Definition sample_time : string := "2024-05-01T10:00:00.000Z".
Definition later_time : string := "2024-06-01T10:00:00.000Z".

(** [Date.now()] at [sample_time]. *)
Definition sample_now : Z := 1714557600000.

Definition sample_form : UseCaseFormData.t :=
  UseCaseFormData.Build "Fraud detection" "Scoring of card payments" "Full text"
    (strings ["Finance"; "Retail"]) (strings ["Old"]) "" "published".

(** The record [createUseCase] stores for [sample_form] at [sample_time]. *)
Definition sample_use_case : UseCase.t :=
  UseCase.Build (JStr "usecase_1714557600000") (JStr "Fraud detection")
    (JStr "Scoring of card payments") (JStr "Full text")
    (JStr "Finance") (JStr "Old")
    (strings ["Finance"; "Retail"]) (strings ["Old"])
    (JStr placeholder_image) (JStr "published")
    (JStr sample_time) (JStr sample_time).

(** A form that changes the categories only. *)
Definition new_categories : PartialFormData.t :=
  PartialFormData.Build None None None JUndefined (strings ["NewCat"]) None None.



(** A stored record whose scalar is not the first element of its list. *)
Definition mismatched_record : UseCase.t :=
  UseCase.Build (JStr "u1") (JStr "T") (JStr "D") (JStr "C")
    (JStr "A") (JStr "X")
    (strings ["B"; "C"]) (strings ["X"])
    (JStr placeholder_image) (JStr "draft")
    (JStr sample_time) (JStr sample_time).

(** A row whose scalar column is not the first element of its list column,
    and a remote store that answers every lookup with it. *)
Definition mismatched_row : DbRow.t :=
  DbRow.Build (JStr "r1") (JStr "T") (JStr "D") (JStr "C")
    (JStr "A") (JStr "X")
    (strings ["B"; "C"]) (strings ["X"])
    (JStr placeholder_image) (JStr "draft")
    (JStr sample_time) (JStr sample_time).

Definition mismatched_remote : SupabaseClient :=
  {| select_all := Reply.Build (Some [mismatched_row]) None;
     select_single := fun _ => Reply.Build (Some mismatched_row) None;
     insert_single := fun _ => Reply.Build (Some mismatched_row) None;
     update_single := fun _ _ => Reply.Build (Some mismatched_row) None;
     delete_eq := fun _ => None |}.



(** Forms that miss a required field, and one whose only industry is blank. *)
Definition blank_title_form : UseCaseFormData.t :=
  UseCaseFormData.Build "  " "Scoring of card payments" "Full text"
    (strings ["Finance"]) (strings ["Old"]) "" "draft".

Definition no_industry_form : UseCaseFormData.t :=
  UseCaseFormData.Build "Fraud detection" "Scoring of card payments" "Full text"
    (JArr []) (strings ["Old"]) "" "draft".

Definition blank_industry_form : UseCaseFormData.t :=
  UseCaseFormData.Build "Fraud detection" "Scoring of card payments" "Full text"
    (strings ["   "]) (strings ["Old"]) "" "draft".

(** ** Further notions *)

(** What the local reads return for a stored use case: the stored fields,
    with the two lists normalized and the legacy scalar as fallback. *)
Definition stored_view {parser : JsonParser} (useCase : UseCase.t) : UseCase.t :=
  UseCase.Build
    (UseCase.id useCase) (UseCase.title useCase)
    (UseCase.description useCase) (UseCase.content useCase)
    (UseCase.industry useCase) (UseCase.category useCase)
    (or_legacy (normalized (UseCase.industries useCase)) (UseCase.industry useCase))
    (or_legacy (normalized (UseCase.categories useCase)) (UseCase.category useCase))
    (UseCase.imageUrl useCase) (UseCase.status useCase)
    (UseCase.createdAt useCase) (UseCase.updatedAt useCase).

(** The id [createUseCase] gives on the local backend. *)
Definition local_id (now : Z) : string := "usecase_" ++ pretty now.

(** A record from before the list fields existed: scalars only. *)
Definition legacy_record : UseCase.t :=
  UseCase.Build (JStr "old1") (JStr "T") (JStr "D") (JStr "C")
    (JStr "Finance") JUndefined
    JUndefined JNull
    (JStr placeholder_image) (JStr "draft")
    (JStr sample_time) (JStr sample_time).

(** A row from before the list columns existed, and a remote store that
    holds it. *)
Definition legacy_row : DbRow.t :=
  DbRow.Build (JStr "r3") (JStr "T") (JStr "D") (JStr "C")
    (JStr "Finance") (JStr "Old")
    JNull JNull
    (JStr placeholder_image) (JStr "draft")
    (JStr sample_time) (JStr sample_time).

Definition legacy_remote : SupabaseClient :=
  {| select_all := Reply.Build (Some [legacy_row]) None;
     select_single := fun _ => Reply.Build (Some legacy_row) None;
     insert_single := fun _ => Reply.Build (Some legacy_row) None;
     update_single := fun _ _ => Reply.Build (Some legacy_row) None;
     delete_eq := fun _ => None |}.

(** ** Slugs *)

(** The letters [toLowerCase] changes, among the characters a [string]
    holds: A to Z, and the capital letters from 192 to 222 (215, the
    multiplication sign, is none). Each has its small letter 32 places up. *)
Definition is_upper_case (c : ascii) : bool :=
  let n := nat_of_ascii c in
  (Nat.leb 65 n && Nat.leb n 90)
  || (Nat.leb 192 n && Nat.leb n 222 && negb (Nat.eqb n 215)).

Definition toLowerCase_char (c : ascii) : ascii :=
  if is_upper_case c then ascii_of_nat (nat_of_ascii c + 32) else c.

Fixpoint toLowerCase (s : string) : string :=
  match s with
  | String c rest => String (toLowerCase_char c) (toLowerCase rest)
  | EmptyString => EmptyString
  end.

(** The class [\w]: letters of the basic alphabet, digits and the underscore. *)
Definition is_word_char (c : ascii) : bool :=
  let n := nat_of_ascii c in
  (Nat.leb 48 n && Nat.leb n 57) || (Nat.leb 65 n && Nat.leb n 90)
  || (Nat.leb 97 n && Nat.leb n 122) || Nat.eqb n 95.

(** [s.replace(/[^\w\s]/gi, "")] *)
Fixpoint remove_punctuation (s : string) : string :=
  match s with
  | String c rest =>
      if is_word_char c || is_white_space c
      then String c (remove_punctuation rest)
      else remove_punctuation rest
  | EmptyString => EmptyString
  end.

(** [s.replace(/\s+/g, "-")]: one hyphen for each run of white space;
    [in_run] tells that the character before was white space. *)
Fixpoint dash_spaces (in_run : bool) (s : string) : string :=
  match s with
  | String c rest =>
      if is_white_space c
      then if in_run then dash_spaces true rest
           else String "-" (dash_spaces true rest)
      else String c (dash_spaces false rest)
  | EmptyString => EmptyString
  end.

Definition generateSlug (title : string) : string :=
  dash_spaces false (remove_punctuation (toLowerCase title)).

(** Every character of [s] satisfies [p]. *)
Fixpoint string_all (p : ascii -> bool) (s : string) : bool :=
  match s with
  | String c rest => p c && string_all p rest
  | EmptyString => true
  end.

Definition is_hyphen (c : ascii) : bool := Ascii.eqb c "-".

(** A small letter of the basic alphabet, a digit, an underscore or a hyphen. *)
Definition is_slug_char (c : ascii) : bool :=
  let n := nat_of_ascii c in
  (Nat.leb 48 n && Nat.leb n 57) || (Nat.leb 97 n && Nat.leb n 122)
  || Nat.eqb n 95 || is_hyphen c.

(** [s] has two hyphens in a row. *)
Fixpoint has_double_hyphen (s : string) : bool :=
  match s with
  | String a rest =>
      match rest with
      | String b _ => (is_hyphen a && is_hyphen b) || has_double_hyphen rest
      | EmptyString => false
      end
  | EmptyString => false
  end.

(** The characters left before the white space is replaced. *)
Definition lowered_kept (c : ascii) : bool :=
  (is_slug_char c && negb (is_hyphen c)) || is_white_space c.

(** The first character of [s] is no hyphen. *)
Definition no_leading_hyphen (s : string) : bool :=
  match s with String c _ => negb (is_hyphen c) | EmptyString => true end.

(** ** The slideshow of [home.tsx] *)

Module Slideshow.

(** [(prev + 1) % useCases.length], the updater of [goToNext] and of the
    auto-play timer; [%] is the remainder of the truncated division. *)
Definition goToNext (length prev : Z) : Z := Z.rem (prev + 1) length.

(** [(prev - 1 + useCases.length) % useCases.length] *)
Definition goToPrevious (length prev : Z) : Z := Z.rem (prev - 1 + length) length.

End Slideshow.

(** ** The use-case pages of [hero.tsx] and [UseCasesSection.tsx] *)

(** ["industry" | "category"] *)
Inductive FilterType : Type :=
| IndustryFilter
| CategoryFilter.

Definition FilterType_eqb (a b : FilterType) : bool :=
  match a, b with
  | IndustryFilter, IndustryFilter | CategoryFilter, CategoryFilter => true
  | _, _ => false
  end.

(** [interface FilterOption] *)
Module FilterOption.
Record t : Type := Build {
  name : string;
  type : FilterType;
  isSelected : bool
}.
End FilterOption.

(** [interface UseCase] of the two components; the list fields are optional. *)
Module Card.
Record t : Type := Build {
  id : string;
  title : string;
  description : string;
  image : string;
  industry : string;
  industries : option (list string);
  solutionType : string;
  categories : option (list string);
  link : string
}.
End Card.

(** [items.includes(x)] *)
Definition includes (items : list string) (x : string) : bool :=
  existsb (String.eqb x) items.

(** The names of the selected options of a type:
    [.filter((f) => f.type === type && f.isSelected).map((f) => f.name)] *)
Definition selectedNames (type : FilterType) (filters : list FilterOption.t)
  : list string :=
  FilterOption.name <$>
    List.filter
      (fun f => FilterType_eqb (FilterOption.type f) type && FilterOption.isSelected f)
      filters.

Module Hero.

(** [items?.some((x) => selected.includes(x))], falsy when the list is
    missing. *)
Definition someSelected (items : option (list string)) (selected : list string) : bool :=
  match items with
  | Some l => existsb (fun x => includes selected x) l
  | None => false
  end.

(** The value the effect of [hero.tsx] gives to [filteredUseCases]. *)
Definition filteredUseCases (filters : list FilterOption.t) (useCases : list Card.t)
  : list Card.t :=
  let selectedIndustries := selectedNames IndustryFilter filters in
  let selectedCategories := selectedNames CategoryFilter filters in
  if Nat.eqb (length selectedIndustries) 0 && Nat.eqb (length selectedCategories) 0
  then useCases
  else
    List.filter
      (fun useCase =>
         let matchesIndustry :=
           Nat.eqb (length selectedIndustries) 0
           || someSelected (Card.industries useCase) selectedIndustries in
         let matchesCategory :=
           Nat.eqb (length selectedCategories) 0
           || someSelected (Card.categories useCase) selectedCategories in
         matchesIndustry && matchesCategory)
      useCases.

(** The updater of [toggleFilter]. *)
Definition toggleFilter (filterName : string) (prev : list FilterOption.t)
  : list FilterOption.t :=
  (fun filter =>
     if String.eqb (FilterOption.name filter) filterName
     then FilterOption.Build (FilterOption.name filter) (FilterOption.type filter)
            (negb (FilterOption.isSelected filter))
     else filter) <$> prev.

(** The updater of [clearAllFilters]. *)
Definition clearAllFilters (prev : list FilterOption.t) : list FilterOption.t :=
  (fun filter =>
     FilterOption.Build (FilterOption.name filter) (FilterOption.type filter) false)
    <$> prev.

End Hero.

Module UseCasesPage.

(** [f.name === name && f.type === type] *)
Definition is_filter (name : string) (type : FilterType) (f : FilterOption.t) : bool :=
  String.eqb (FilterOption.name f) name && FilterType_eqb (FilterOption.type f) type.

(** The updater of [toggleFilter]. *)
Definition toggleFilter (name : string) (type : FilterType)
    (prev : list FilterOption.t) : list FilterOption.t :=
  match List.find (is_filter name type) prev with
  | Some _ => List.filter (fun f => negb (is_filter name type f)) prev
  | None => prev ++ [FilterOption.Build name type true]
  end.

(** The updater of [removeFilter]. *)
Definition removeFilter (name : string) (type : FilterType)
    (prev : list FilterOption.t) : list FilterOption.t :=
  List.filter (fun f => negb (is_filter name type f)) prev.

(** [useCase.industries || [useCase.industry]] *)
Definition industriesOf (useCase : Card.t) : list string :=
  match Card.industries useCase with
  | Some l => l
  | None => [Card.industry useCase]
  end.

(** [useCase.categories || [useCase.solutionType]] *)
Definition categoriesOf (useCase : Card.t) : list string :=
  match Card.categories useCase with
  | Some l => l
  | None => [Card.solutionType useCase]
  end.

(** [Array.from(new Set(items))]: the first occurrence of each element. *)
Fixpoint unique_from (seen items : list string) : list string :=
  match items with
  | x :: rest =>
      if includes seen x then unique_from seen rest
      else x :: unique_from (x :: seen) rest
  | [] => []
  end.

(** The constants [industries] and [solutionTypes] of the component. *)
Definition industries (defaultUseCases : list Card.t) : list string :=
  unique_from [] (flat_map industriesOf defaultUseCases).

Definition solutionTypes (defaultUseCases : list Card.t) : list string :=
  unique_from [] (flat_map categoriesOf defaultUseCases).

(** [text.toLowerCase().includes(searchTerm.toLowerCase())] *)
Definition mentions (searchTerm text : string) : bool :=
  match String.index 0 (toLowerCase searchTerm) (toLowerCase text) with
  | Some _ => true
  | None => false
  end.

(** The list [filterUseCases] gives to [setUseCases]. *)
Definition filterUseCases (defaultUseCases : list Card.t) (searchTerm : string)
    (selectedFilters : list FilterOption.t) (activeTab : string) : list Card.t :=
  let filtered := defaultUseCases in
  let filtered :=
    if negb (String.eqb searchTerm "") then
      List.filter
        (fun useCase =>
           mentions searchTerm (Card.title useCase)
           || mentions searchTerm (Card.description useCase)
           || existsb (mentions searchTerm) (industriesOf useCase)
           || existsb (mentions searchTerm) (categoriesOf useCase))
        filtered
    else filtered in
  if Nat.ltb 0 (length selectedFilters) then
    let selectedIndustries := selectedNames IndustryFilter selectedFilters in
    let selectedCategories := selectedNames CategoryFilter selectedFilters in
    let filtered :=
      if Nat.ltb 0 (length selectedIndustries) then
        List.filter
          (fun useCase => existsb (includes selectedIndustries) (industriesOf useCase))
          filtered
      else filtered in
    if Nat.ltb 0 (length selectedCategories) then
      List.filter
        (fun useCase => existsb (includes selectedCategories) (categoriesOf useCase))
        filtered
    else filtered
  else if negb (String.eqb activeTab "all") then
    if includes (industries defaultUseCases) activeTab then
      List.filter (fun useCase => includes (industriesOf useCase) activeTab) filtered
    else if includes (solutionTypes defaultUseCases) activeTab then
      List.filter (fun useCase => includes (categoriesOf useCase) activeTab) filtered
    else filtered
  else filtered.

End UseCasesPage.

(** Sample cards and options for the closed examples. *)
Definition finance_card : Card.t :=
  Card.Build "c1" "Fraud detection" "Scoring of card payments" "img1"
    "Finance" (Some ["Finance"; "Retail"]) "Analytics" (Some ["Analytics"])
    "/use-cases/c1".

Definition health_card : Card.t :=
  Card.Build "c2" "Triage assistant" "Sorting of patient requests" "img2"
    "Health" None "Assistants" None "/use-cases/c2".

Definition sample_filters : list FilterOption.t :=
  [FilterOption.Build "Finance" IndustryFilter true;
   FilterOption.Build "Health" IndustryFilter false;
   FilterOption.Build "Analytics" CategoryFilter false].

(** * Properties *)

(** ** The exception monad *)

Lemma mapM_cons {A B} (f : A -> Result B) (x : A) (l : list A) :
  mapM f (x :: l) =
  match f x with
  | Ok y => match mapM f l with Ok k => Ok (y :: k) | Throw e => Throw e end
  | Throw e => Throw e
  end.
Proof. reflexivity. Qed.

Lemma mapM_Ok_Forall2 {A B} (f : A -> Result B) (l : list A) (k : list B) :
  mapM f l = Ok k <-> Forall2 (fun x y => f x = Ok y) l k.
Proof.
  revert k. induction l as [|x l IH]; intros k.
  - split.
    + intros [= <-]. constructor.
    + intros Hk. inversion Hk. reflexivity.
  - rewrite mapM_cons. split.
    + destruct (f x) as [y|e] eqn:Hx; [|discriminate].
      destruct (mapM f l) as [k'|e] eqn:Hl; [|discriminate].
      intros [= <-]. constructor; [assumption|]. apply IH. reflexivity.
    + intros Hk. inversion Hk as [|? y ? k' Hy Hrest]; subst.
      apply IH in Hrest. rewrite Hy, Hrest. reflexivity.
Qed.

(** ** String conversion *)

Lemma js_String_JArr (items : list JsValue) :
  js_String (JArr items) = ss ← join_items items; Ok (String.concat "," ss).
Proof.
  cbn [js_String]. unfold mbind at 1, Result_bind at 1.
  match goal with |- match ?a with _ => _ end = match ?b with _ => _ end =>
    replace a with b; [reflexivity|] end.
  induction items as [|x rest IH]; [reflexivity|].
  cbn [join_items]. unfold mbind, Result_bind. rewrite IH. reflexivity.
Qed.

Lemma map_String_join_items (items : list JsValue) (strs : list string) :
  map_String items = Ok strs -> exists ss, join_items items = Ok ss.
Proof.
  unfold map_String. revert strs.
  induction items as [|x rest IH]; intros strs Hmap; [eexists; reflexivity|].
  apply mapM_Ok_Forall2 in Hmap.
  inversion Hmap as [|? s ? strs' Hx Hrest]; subst.
  apply mapM_Ok_Forall2 in Hrest. destruct (IH _ Hrest) as [ss Hss].
  cbn [join_items]. rewrite Hss.
  destruct x; try (rewrite Hx); eexists; reflexivity.
Qed.

Lemma map_String_strings_of (l : list string) : map_String (strings_of l) = Ok l.
Proof.
  apply mapM_Ok_Forall2. unfold strings_of.
  induction l; simpl; constructor; auto.
Qed.

Lemma debugValue_array (label : string) (items : list JsValue) (strs : list string) :
  map_String items = Ok strs -> debugValue label (JArr items) = Ok tt.
Proof.
  intros Hmap. destruct (map_String_join_items _ _ Hmap) as [ss Hss].
  unfold debugValue. rewrite js_String_JArr, Hss. reflexivity.
Qed.

(** ** Normalization adapter *)

Section NormalizationFacts.
Context {parser : JsonParser}.

(** The label only tags the traces. *)
Lemma safeEnsureArray_label (v : JsValue) (a b : string) :
  safeEnsureArray v a = safeEnsureArray v b.
Proof. reflexivity. Qed.

Lemma safeEnsureArray_total (v : JsValue) (label : string) :
  exists l, safeEnsureArray v label = Ok l.
Proof.
  unfold safeEnsureArray, try_catch.
  destruct (safeEnsureArray_try v label); eauto.
Qed.

Lemma safeEnsureArray_normalized (v : JsValue) (label : string) :
  safeEnsureArray v label = Ok (normalized v).
Proof.
  unfold normalized, ensureArray. rewrite (safeEnsureArray_label v label "unknown").
  destruct (safeEnsureArray_total v "unknown") as [l ->]. reflexivity.
Qed.

Lemma safeEnsureArray_array (items : list JsValue) (strs : list string) (label : string) :
  map_String items = Ok strs -> safeEnsureArray (JArr items) label = Ok strs.
Proof.
  intros Hmap. unfold safeEnsureArray, safeEnsureArray_try.
  rewrite (debugValue_array _ _ _ Hmap). cbn -[map_String]. rewrite Hmap. reflexivity.
Qed.

Lemma safeEnsureArray_strings (l : list string) (label : string) :
  safeEnsureArray (strings l) label = Ok l.
Proof. apply safeEnsureArray_array, map_String_strings_of. Qed.

Lemma normalized_strings (l : list string) : normalized (strings l) = l.
Proof. unfold normalized, ensureArray. rewrite safeEnsureArray_strings. reflexivity. Qed.

Lemma safeEnsureArray_plain_string (s label : string) :
  startsWith (trim s) "[" && endsWith (trim s) "]" = false ->
  safeEnsureArray (JStr s) label = Ok [s].
Proof.
  intros Hplain. unfold safeEnsureArray, safeEnsureArray_try. cbn.
  rewrite Hplain. reflexivity.
Qed.

(** An object with an own [toString] property makes the [try] block raise;
    the adapter then returns the empty list. *)
Lemma safeEnsureArray_degrades (label : string) :
  safeEnsureArray_try (JObj [("toString", JNum 1)]) label
    = Throw (Error "Cannot convert object to primitive value") /\
  safeEnsureArray (JObj [("toString", JNum 1)]) label = Ok [] /\
  safeEnsureArray (JArr [JStr "a"; JObj [("toString", JNum 1)]]) label = Ok [].
Proof. repeat split. Qed.

(** C1. For every value (null, undefined, array, string, number, boolean or
    object) and every label, [safeEnsureArray] returns a list of strings and
    does not raise: it returns what its [try] block returns, and the empty
    list when the block raises. *)
Theorem safeEnsureArray_never_raises (v : JsValue) (label : string) :
  exists l : list string,
    safeEnsureArray v label = Ok l /\
    match safeEnsureArray_try v label with
    | Ok l' => l = l'
    | Throw _ => l = []
    end.
Proof.
  unfold safeEnsureArray, try_catch.
  destruct (safeEnsureArray_try v label) as [l'|e]; eexists; split; reflexivity.
Qed.

(** C2. For a string whose trimmed form starts with an opening and ends
    with a closing bracket: when it parses as a JSON array, the result is that
    array with each element mapped to its string form; when it parses as
    something else, the result is the one-element list of the stringified
    original value; when parsing fails, the result is the one-element list of
    the original string, brackets included, and nothing is raised. *)
Theorem safeEnsureArray_bracketed (s label : string) :
  startsWith (trim s) "[" = true ->
  endsWith (trim s) "]" = true ->
  match JSON_parse s with
  | Ok (JArr items) =>
      forall strs, Forall2 (fun item str => js_String item = Ok str) items strs ->
                   safeEnsureArray (JStr s) label = Ok strs
  | Ok _ =>
      exists str, js_String (JStr s) = Ok str /\
                  safeEnsureArray (JStr s) label = Ok [str]
  | Throw _ => safeEnsureArray (JStr s) label = Ok [s]
  end.
Proof.
  intros Hopen Hclose.
  unfold safeEnsureArray, safeEnsureArray_try. cbn.
  rewrite Hopen, Hclose. cbn -[map_String].
  destruct (JSON_parse s) as [parsed|e]; [|reflexivity].
  destruct parsed; try (eexists; split; reflexivity).
  intros strs Hall. apply mapM_Ok_Forall2 in Hall.
  cbn -[map_String]. unfold map_String. rewrite Hall. reflexivity.
Qed.

(** A parsed array with an element that has no string form falls back to
    the original string, like a parse failure. *)
Lemma safeEnsureArray_bracketed_unprintable (s label : string) items e :
  startsWith (trim s) "[" = true ->
  endsWith (trim s) "]" = true ->
  JSON_parse s = Ok (JArr items) ->
  map_String items = Throw e ->
  safeEnsureArray (JStr s) label = Ok [s].
Proof.
  intros Hopen Hclose Hparse Hmap.
  unfold safeEnsureArray, safeEnsureArray_try. cbn.
  rewrite Hopen, Hclose, Hparse. cbn -[map_String]. rewrite Hmap. reflexivity.
Qed.

(** C9. Base cases of the adapter: null and undefined give the empty list;
    an array gives the string form of each element, in order and with
    repetitions kept; a string that is not bracketed gives itself as single
    element; a number or a boolean gives its string form as single element;
    an object that is not an array gives its string representation as single
    element. *)
Theorem safeEnsureArray_base_cases (label : string) :
  safeEnsureArray JNull label = Ok [] /\
  safeEnsureArray JUndefined label = Ok [] /\
  (forall items strs,
      Forall2 (fun item str => js_String item = Ok str) items strs ->
      safeEnsureArray (JArr items) label = Ok strs) /\
  safeEnsureArray (JArr [JStr "a"; JStr "a"]) label = Ok ["a"; "a"] /\
  (forall s,
      startsWith (trim s) "[" && endsWith (trim s) "]" = false ->
      safeEnsureArray (JStr s) label = Ok [s]) /\
  (forall n, safeEnsureArray (JNum n) label = Ok [pretty n]) /\
  safeEnsureArray (JNum 42) label = Ok ["42"] /\
  (forall b, safeEnsureArray (JBool b) label = Ok [if b then "true" else "false"]) /\
  (forall props str,
      js_String (JObj props) = Ok str ->
      safeEnsureArray (JObj props) label = Ok [str]) /\
  safeEnsureArray (JObj []) label = Ok ["[object Object]"].
Proof.
  do 2 (split; [reflexivity|]).
  split.
  { intros items strs Hall. apply safeEnsureArray_array, mapM_Ok_Forall2, Hall. }
  split; [reflexivity|].
  split; [intros s; apply safeEnsureArray_plain_string|].
  do 2 (split; [reflexivity|]).
  split; [intros []; reflexivity|].
  split; [|reflexivity].
  intros props str Hstr. unfold safeEnsureArray, safeEnsureArray_try, debugValue.
  rewrite Hstr. reflexivity.
Qed.

End NormalizationFacts.

Lemma safeEnsureArray_bracketed_witness :
  safeEnsureArray (parser := reference_parser)
    (JStr ("[" ++ quoted "x" ++ "," ++ quoted "y" ++ "]")) "industries"
    = Ok ["x"; "y"] /\
  safeEnsureArray (parser := reference_parser) (JStr "[not valid json]") "industries"
    = Ok ["[not valid json]"].
Proof.
  split.
  - apply (safeEnsureArray_bracketed (parser := reference_parser)
             ("[" ++ quoted "x" ++ "," ++ quoted "y" ++ "]") "industries"
             eq_refl eq_refl ["x"; "y"]).
    repeat constructor.
  - exact (safeEnsureArray_bracketed (parser := reference_parser)
             "[not valid json]" "industries" eq_refl eq_refl).
Defined.

Lemma safeEnsureArray_base_cases_witness :
  safeEnsureArray (parser := reference_parser) (JArr [JStr "a"; JNum 42; JNull]) "tags"
    = Ok ["a"; "42"; "null"] /\
  safeEnsureArray (parser := reference_parser) (JStr "plain") "tags" = Ok ["plain"] /\
  safeEnsureArray (parser := reference_parser) (JObj [("k", JNum 1)]) "tags"
    = Ok ["[object Object]"].
Proof.
  destruct (safeEnsureArray_base_cases (parser := reference_parser) "tags")
    as (_ & _ & Harr & _ & Hstr & _ & _ & _ & Hobj & _).
  split; [|split].
  - apply Harr. repeat constructor.
  - apply Hstr. reflexivity.
  - apply Hobj. reflexivity.
Defined.

(** ** Persistence gateway *)

(** Runs the gateway monad. *)
Ltac run_gateway :=
  unfold gateway_catch, throw, lift, getItem, setItem;
  unfold mbind, mret, fmap;
  unfold Gateway_bind, Gateway_ret, Gateway_fmap, Result_fmap.

Lemma string_eqb_empty (s : string) : String.eqb s "" = false <-> s <> "".
Proof. apply String.eqb_neq. Qed.

Lemma length_eqb_0 {A} (l : list A) : Nat.eqb (length l) 0 = false <-> l <> [].
Proof. destruct l; simpl; split; congruence. Qed.

Lemma first_or_strings_of (l : list string) :
  first_or (JStr "") (strings_of l) = JStr (first_or "" l).
Proof. destruct l; reflexivity. Qed.

Lemma written_record_consistent (u : UseCase.t) :
  written_record u -> primary_fields_consistent u.
Proof.
  intros (li & lc & Hi & Hi1 & Hc & Hc1). split.
  - exists (strings_of li). rewrite Hi, Hi1, first_or_strings_of. auto.
  - exists (strings_of lc). rewrite Hc, Hc1, first_or_strings_of. auto.
Qed.

Section CreateFacts.
Context {parser : JsonParser}.
Variable supabase : SupabaseClient.
Variable Date_toISOString : string.
Variable Date_now : Z.

(** The first missing field, in the order of the checks, decides the
    error, whatever the backend and the stored state. *)
Lemma createUseCase_rejects (data : UseCaseFormData.t) (f : RequiredField) :
  offending data f ->
  (forall g, field_rank g < field_rank f -> ~ offending data g) ->
  forall useLocal store,
    createUseCase useLocal supabase Date_toISOString Date_now data store
    = (Throw (Error (required_message f)), store).
Proof.
  intros Hf Hfirst useLocal store.
  assert (Hlt : forall g, field_rank g < field_rank f -> ~ offending data g)
    by exact Hfirst.
  unfold createUseCase. run_gateway.
  rewrite !safeEnsureArray_normalized.
  destruct (String.eqb (trim (UseCaseFormData.title data)) "") eqn:Ht.
  { apply String.eqb_eq in Ht.
    destruct f; try (exfalso; apply (Hlt TitleField); [simpl; lia | exact Ht]).
    reflexivity. }
  apply string_eqb_empty in Ht.
  destruct (String.eqb (trim (UseCaseFormData.description data)) "") eqn:Hd.
  { apply String.eqb_eq in Hd.
    destruct f; try (exfalso; apply (Hlt DescriptionField); [simpl; lia | exact Hd]);
      [contradiction | reflexivity]. }
  apply string_eqb_empty in Hd.
  destruct (String.eqb (trim (UseCaseFormData.content data)) "") eqn:Hc.
  { apply String.eqb_eq in Hc.
    destruct f; try (exfalso; apply (Hlt ContentField); [simpl; lia | exact Hc]);
      [contradiction .. | reflexivity]. }
  apply string_eqb_empty in Hc.
  destruct (normalized (UseCaseFormData.industries data)) as [|i li] eqn:Hi.
  { destruct f; try (exfalso; apply (Hlt IndustriesField); [simpl; lia | exact Hi]);
      [contradiction .. | reflexivity]. }
  destruct (normalized (UseCaseFormData.categories data)) as [|c lc] eqn:Hcat.
  { destruct f; simpl in Hf; try contradiction; try congruence. reflexivity. }
  destruct f; simpl in Hf; try contradiction; congruence.
Qed.

(** A complete form is stored at the end of the local list and returned. *)
Lemma createUseCase_local_stores (data : UseCaseFormData.t) (store : LocalStore) :
  trim (UseCaseFormData.title data) <> "" ->
  trim (UseCaseFormData.description data) <> "" ->
  trim (UseCaseFormData.content data) <> "" ->
  normalized (UseCaseFormData.industries data) <> [] ->
  normalized (UseCaseFormData.categories data) <> [] ->
  let newUseCase :=
    UseCase.Build
      (JStr ("usecase_" ++ pretty Date_now))
      (JStr (UseCaseFormData.title data))
      (JStr (UseCaseFormData.description data))
      (JStr (UseCaseFormData.content data))
      (JStr (first_or "" (normalized (UseCaseFormData.industries data))))
      (JStr (first_or "" (normalized (UseCaseFormData.categories data))))
      (strings (normalized (UseCaseFormData.industries data)))
      (strings (normalized (UseCaseFormData.categories data)))
      (JStr (string_or (UseCaseFormData.imageUrl data) placeholder_image))
      (JStr (UseCaseFormData.status data))
      (JStr Date_toISOString) (JStr Date_toISOString) in
  createUseCase true supabase Date_toISOString Date_now data store
  = (Ok newUseCase, (store ++ [newUseCase])%list).
Proof.
  intros Ht Hd Hc Hi Hcat.
  apply string_eqb_empty in Ht, Hd, Hc. apply length_eqb_0 in Hi, Hcat.
  unfold createUseCase. run_gateway.
  rewrite !safeEnsureArray_normalized, Ht, Hd, Hc, Hi, Hcat. reflexivity.
Qed.

(** What [createUseCase] can do to the local list. *)
Lemma createUseCase_local_effect (data : UseCaseFormData.t) (store store' : LocalStore)
    (r : Result UseCase.t) :
  createUseCase true supabase Date_toISOString Date_now data store = (r, store') ->
  match r with
  | Ok u => written_record u /\ store' = (store ++ [u])%list
  | Throw _ => store' = store
  end.
Proof.
  unfold createUseCase. run_gateway.
  rewrite !safeEnsureArray_normalized.
  destruct (String.eqb (trim (UseCaseFormData.title data)) "");
    [intros [= <- <-]; reflexivity|].
  destruct (String.eqb (trim (UseCaseFormData.description data)) "");
    [intros [= <- <-]; reflexivity|].
  destruct (String.eqb (trim (UseCaseFormData.content data)) "");
    [intros [= <- <-]; reflexivity|].
  destruct (Nat.eqb (length (normalized (UseCaseFormData.industries data))) 0);
    [intros [= <- <-]; reflexivity|].
  destruct (Nat.eqb (length (normalized (UseCaseFormData.categories data))) 0);
    [intros [= <- <-]; reflexivity|].
  intros [= <- <-]. split; [|reflexivity].
  do 2 eexists. cbn. repeat split.
Qed.

End CreateFacts.

Lemma without_id_absent (id : string) (store : LocalStore) :
  find_by_id id store = None -> without_id id store = store.
Proof.
  unfold find_by_id, without_id. intros Hnone.
  apply list_find_None in Hnone.
  induction Hnone as [|u store Hu _ IH]; [reflexivity|].
  simpl. destruct (strict_eq_string (UseCase.id u) id); simpl.
  - exfalso. apply Hu. exact I.
  - rewrite IH. reflexivity.
Qed.

Lemma find_by_id_without_id (id : string) (store : LocalStore) :
  find_by_id id (without_id id store) = None.
Proof.
  unfold find_by_id, without_id. apply list_find_None.
  induction store as [|u store IH]; simpl; [constructor|].
  destruct (strict_eq_string (UseCase.id u) id) eqn:Hu; simpl; [exact IH|].
  constructor; [|exact IH]. rewrite Hu. auto.
Qed.

Lemma find_by_id_lookup (id : string) (store : LocalStore) i u :
  find_by_id id store = Some (i, u) -> store !! i = Some u.
Proof. unfold find_by_id. intros Hfind. apply list_find_Some in Hfind. tauto. Qed.

Section StoreFacts.
Context {parser : JsonParser}.
Variable supabase : SupabaseClient.
Variable Date_toISOString : string.

Lemma updateUseCase_local_missing (id : string) (data : PartialFormData.t)
    (store : LocalStore) :
  find_by_id id store = None ->
  updateUseCase true supabase Date_toISOString id data store
  = (Throw (Error ("Use case with ID " ++ id ++ " not found")), store).
Proof.
  unfold find_by_id. intros Hnone.
  unfold updateUseCase. run_gateway. rewrite Hnone. reflexivity.
Qed.

(** The record found is replaced, at its index, by the updated one. *)
Lemma updateUseCase_local_found (id : string) (data : PartialFormData.t)
    (store : LocalStore) (i : nat) (useCase : UseCase.t) :
  find_by_id id store = Some (i, useCase) ->
  let industriesArray :=
    if is_defined (PartialFormData.industries data)
    then normalized (PartialFormData.industries data)
    else normalized (js_or (UseCase.industries useCase) (JArr [])) in
  let categoriesArray :=
    if is_defined (PartialFormData.categories data)
    then normalized (PartialFormData.categories data)
    else normalized (js_or (UseCase.categories useCase) (JArr [])) in
  let updatedUseCase :=
    UseCase.Build
      (UseCase.id useCase)
      (supplied_or (PartialFormData.title data) (UseCase.title useCase))
      (supplied_or (PartialFormData.description data) (UseCase.description useCase))
      (supplied_or (PartialFormData.content data) (UseCase.content useCase))
      (JStr (first_or "" industriesArray)) (JStr (first_or "" categoriesArray))
      (strings industriesArray) (strings categoriesArray)
      (supplied_or (PartialFormData.imageUrl data) (UseCase.imageUrl useCase))
      (supplied_or (PartialFormData.status data) (UseCase.status useCase))
      (UseCase.createdAt useCase)
      (JStr Date_toISOString) in
  updateUseCase true supabase Date_toISOString id data store
  = (Ok updatedUseCase, <[i := updatedUseCase]> store).
Proof.
  unfold find_by_id. intros Hfind.
  unfold updateUseCase. run_gateway. rewrite Hfind.
  rewrite !safeEnsureArray_normalized.
  destruct (is_defined (PartialFormData.industries data));
    destruct (is_defined (PartialFormData.categories data));
    rewrite ?safeEnsureArray_normalized; reflexivity.
Qed.

Lemma updateUseCase_local_effect (id : string) (data : PartialFormData.t)
    (store store' : LocalStore) (r : Result UseCase.t) :
  updateUseCase true supabase Date_toISOString id data store = (r, store') ->
  match r with
  | Ok u => written_record u /\ exists i, store' = <[i := u]> store
  | Throw _ => store' = store
  end.
Proof.
  destruct (find_by_id id store) as [[i useCase]|] eqn:Hfind.
  - rewrite (updateUseCase_local_found _ _ _ _ _ Hfind). cbv zeta.
    intros [= <- <-]. split; [|eexists; reflexivity].
    do 2 eexists. cbn. repeat split.
  - rewrite (updateUseCase_local_missing _ _ _ Hfind). intros [= <- <-]. reflexivity.
Qed.

Lemma deleteUseCase_local_missing (id : string) (store : LocalStore) :
  find_by_id id store = None ->
  deleteUseCase true supabase id store
  = (Throw (Error ("Failed to delete use case with ID " ++ id)), store).
Proof.
  intros Hnone. unfold deleteUseCase. run_gateway.
  fold (without_id id store). rewrite (without_id_absent _ _ Hnone).
  rewrite Nat.eqb_refl. reflexivity.
Qed.

Lemma deleteUseCase_local_effect (id : string) (store store' : LocalStore)
    (r : Result unit) :
  deleteUseCase true supabase id store = (r, store') ->
  match r with
  | Ok _ => store' = without_id id store
  | Throw _ => store' = store
  end.
Proof.
  unfold deleteUseCase. run_gateway. fold (without_id id store).
  destruct (Nat.eqb (length store) (length (without_id id store))).
  - intros [= <- <-]. reflexivity.
  - intros [= <- <-]. reflexivity.
Qed.

Lemma deleteUseCase_remote_failure (id e : string) (store : LocalStore) :
  delete_eq supabase id = Some e ->
  deleteUseCase false supabase id store
  = (Throw (Error ("Failed to delete use case with ID " ++ id)), store).
Proof.
  intros Herr. unfold deleteUseCase. run_gateway. rewrite Herr. reflexivity.
Qed.

Lemma getUseCaseById_local_missing (id : string) (store : LocalStore) :
  find_by_id id store = None ->
  getUseCaseById true supabase Date_toISOString id store = (Ok None, store).
Proof.
  unfold find_by_id. intros Hnone.
  unfold getUseCaseById. run_gateway. rewrite Hnone. reflexivity.
Qed.

Lemma getUseCaseById_local_found (id : string) (store : LocalStore) i useCase :
  find_by_id id store = Some (i, useCase) ->
  getUseCaseById true supabase Date_toISOString id store
  = (Ok (Some (UseCase.Build
                 (UseCase.id useCase) (UseCase.title useCase)
                 (UseCase.description useCase) (UseCase.content useCase)
                 (UseCase.industry useCase) (UseCase.category useCase)
                 (or_legacy (normalized (UseCase.industries useCase))
                    (UseCase.industry useCase))
                 (or_legacy (normalized (UseCase.categories useCase))
                    (UseCase.category useCase))
                 (UseCase.imageUrl useCase) (UseCase.status useCase)
                 (UseCase.createdAt useCase) (UseCase.updatedAt useCase))),
     store).
Proof.
  unfold find_by_id. intros Hfind.
  unfold getUseCaseById. run_gateway. rewrite Hfind.
  rewrite !safeEnsureArray_normalized. reflexivity.
Qed.



End StoreFacts.

(** ** Stores written by the gateway *)

Lemma without_id_Forall (P : UseCase.t -> Prop) (id : string) (store : LocalStore) :
  Forall P store -> Forall P (without_id id store).
Proof.
  unfold without_id. induction 1 as [|u store Hu _ IH]; simpl; [constructor|].
  destruct (negb (strict_eq_string (UseCase.id u) id)); [constructor|]; assumption.
Qed.

Section WrittenStores.
Context {parser : JsonParser}.

(** Every record of a store the gateway built has the shape it writes. *)
Lemma gateway_written_records (store : LocalStore) :
  gateway_written store -> Forall written_record store.
Proof.
  induction 1 as [| supabase iso now data store r store' _ IH Hop
                  | supabase iso id data store r store' _ IH Hop
                  | supabase id store r store' _ IH Hop].
  - constructor.
  - apply createUseCase_local_effect in Hop. destruct r as [u|e].
    + destruct Hop as [Hu ->]. apply Forall_app. split; [exact IH|]. repeat constructor. exact Hu.
    + subst. exact IH.
  - apply updateUseCase_local_effect in Hop. destruct r as [u|e].
    + destruct Hop as [Hu [i ->]]. apply Forall_insert; assumption.
    + subst. exact IH.
  - apply deleteUseCase_local_effect in Hop. destruct r as [[]|e].
    + subst. apply without_id_Forall. exact IH.
    + subst. exact IH.
Qed.

Lemma or_legacy_written (l : list string) :
  or_legacy l (JStr (first_or "" l)) = strings l.
Proof. destruct l; reflexivity. Qed.

(** A record of that shape is read back as it is. *)
Lemma normalizeStored_written (u : UseCase.t) :
  written_record u -> normalizeStored u = Ok u.
Proof.
  intros (li & lc & Hi & Hi1 & Hc & Hc1).
  unfold normalizeStored, ensureArray.
  rewrite Hi, Hc, !safeEnsureArray_strings, Hi1, Hc1. cbn.
  destruct u; cbn in *; subst.
  destruct li, lc; reflexivity.
Qed.

Lemma mapM_normalizeStored_written (store : LocalStore) :
  Forall written_record store -> mapM normalizeStored store = Ok store.
Proof.
  induction 1 as [|u store Hu _ IH]; [reflexivity|].
  rewrite mapM_cons, (normalizeStored_written _ Hu), IH. reflexivity.
Qed.

Lemma getUseCases_local_written (supabase : SupabaseClient) (store : LocalStore) :
  Forall written_record store ->
  getUseCases true supabase store = (Ok store, store).
Proof.
  intros Hall. unfold getUseCases. run_gateway.
  rewrite (mapM_normalizeStored_written _ Hall). reflexivity.
Qed.

Lemma getUseCaseById_local_written (supabase : SupabaseClient) (iso id : string)
    (store store' : LocalStore) (u : UseCase.t) :
  Forall written_record store ->
  getUseCaseById true supabase iso id store = (Ok (Some u), store') ->
  written_record u.
Proof.
  intros Hall. destruct (find_by_id id store) as [[i useCase]|] eqn:Hfind.
  - rewrite (getUseCaseById_local_found _ _ _ _ _ _ Hfind). intros [= <- _].
    apply find_by_id_lookup in Hfind.
    pose proof (Forall_lookup_1 _ _ _ _ Hall Hfind) as (li & lc & Hi & Hi1 & Hc & Hc1).
    exists li, lc. cbn.
    rewrite Hi, Hc, Hi1, Hc1, !normalized_strings, !or_legacy_written. auto.
  - rewrite (getUseCaseById_local_missing _ _ _ _ Hfind). discriminate.
Qed.

End WrittenStores.

(** ** Rows of the remote store *)

Lemma js_or_same (a : JsValue) : js_or a a = a.
Proof. unfold js_or. destruct (truthy a); reflexivity. Qed.

Lemma js_or_empty (s : string) : js_or (JStr s) (JStr "") = JStr s.
Proof.
  unfold js_or, truthy. destruct (String.eqb s "") eqn:Hs; [|reflexivity].
  apply String.eqb_eq in Hs. subst. reflexivity.
Qed.

Lemma primary_of_strings (l : list string) :
  primary_of (JStr (first_or "" l)) (JArr (strings_of l)).
Proof. exists (strings_of l). rewrite first_or_strings_of. auto. Qed.

Section RemoteRows.
Context {parser : JsonParser}.
Variable supabase : SupabaseClient.
Variable Date_toISOString : string.

Lemma rowToFetched_consistent (row : DbRow.t) :
  consistent_row row ->
  exists u, rowToFetched Date_toISOString row = Ok u /\ primary_fields_consistent u.
Proof.
  intros [Hi Hc]. unfold rowToFetched.
  rewrite !safeEnsureArray_normalized. cbn.
  eexists. split; [reflexivity|]. split; cbn.
  - rewrite Hi, first_or_strings_of, js_or_same. apply primary_of_strings.
  - rewrite Hc, first_or_strings_of, js_or_same. apply primary_of_strings.
Qed.

Lemma legacy_fallback_unused (l : list string) :
  (if Nat.eqb (length (strings_of l)) 0 && truthy (JStr (first_or "" l))
   then [JStr (first_or "" l)] else strings_of l) = strings_of l.
Proof. destruct l; reflexivity. Qed.

Lemma rowToListed_consistent (row : DbRow.t) :
  consistent_row row ->
  exists u, rowToListed row = Ok u /\ primary_fields_consistent u.
Proof.
  intros [Hi Hc]. unfold rowToListed, ensureArray.
  rewrite !safeEnsureArray_normalized. cbn.
  eexists. split; [reflexivity|]. split; cbn.
  - rewrite Hi, legacy_fallback_unused, first_or_strings_of, js_or_same.
    apply primary_of_strings.
  - rewrite Hc, legacy_fallback_unused, first_or_strings_of, js_or_same.
    apply primary_of_strings.
Qed.

Lemma mapM_rowToListed_consistent (rows : list DbRow.t) (us : list UseCase.t) :
  Forall consistent_row rows ->
  mapM rowToListed rows = Ok us ->
  Forall primary_fields_consistent us.
Proof.
  intros Hrows Hmap. apply mapM_Ok_Forall2 in Hmap.
  induction Hmap as [|row u rows us Hrow _ IH]; [constructor|].
  inversion Hrows as [|? ? Hhead Htail]; subst.
  constructor; [|apply IH; exact Htail].
  destruct (rowToListed_consistent _ Hhead) as (u' & Hu' & Hcons).
  congruence.
Qed.

Lemma getUseCases_remote_consistent (store store' : LocalStore) (us : list UseCase.t) :
  (forall rows, Reply.data (select_all supabase) = Some rows ->
                Forall consistent_row rows) ->
  getUseCases false supabase store = (Ok us, store') ->
  Forall primary_fields_consistent us.
Proof.
  intros Hrows. unfold getUseCases. run_gateway.
  destruct (Reply.error (select_all supabase)); [discriminate|].
  destruct (Reply.data (select_all supabase)) as [rows|] eqn:Hdata; cbn.
  - destruct (mapM rowToListed rows) as [us'|e] eqn:Hmap; [|discriminate].
    intros [= <- _].
    apply (mapM_rowToListed_consistent rows); [apply Hrows; reflexivity | exact Hmap].
  - intros [= <- _]. constructor.
Qed.

Lemma getUseCaseById_remote_consistent (id : string) (store store' : LocalStore)
    (u : UseCase.t) :
  (forall row, Reply.data (select_single supabase id) = Some row ->
               consistent_row row) ->
  getUseCaseById false supabase Date_toISOString id store = (Ok (Some u), store') ->
  primary_fields_consistent u.
Proof.
  intros Hrow. unfold getUseCaseById. run_gateway.
  destruct (Reply.error (select_single supabase id)); [discriminate|].
  destruct (Reply.data (select_single supabase id)) as [row|]; [|discriminate].
  destruct (rowToFetched_consistent row (Hrow _ eq_refl)) as (u' & -> & Hcons).
  intros [= <- _]. exact Hcons.
Qed.

Lemma createUseCase_remote_consistent (now : Z) (data : UseCaseFormData.t)
    (store store' : LocalStore) (u : UseCase.t) :
  (forall sent row, Reply.data (insert_single supabase sent) = Some row ->
                    consistent_row row) ->
  createUseCase false supabase Date_toISOString now data store = (Ok u, store') ->
  primary_fields_consistent u.
Proof.
  intros Hrow. unfold createUseCase. run_gateway.
  rewrite !safeEnsureArray_normalized.
  destruct (String.eqb (trim (UseCaseFormData.title data)) ""); [discriminate|].
  destruct (String.eqb (trim (UseCaseFormData.description data)) ""); [discriminate|].
  destruct (String.eqb (trim (UseCaseFormData.content data)) ""); [discriminate|].
  destruct (Nat.eqb (length (normalized (UseCaseFormData.industries data))) 0);
    [discriminate|].
  destruct (Nat.eqb (length (normalized (UseCaseFormData.categories data))) 0);
    [discriminate|].
  match goal with |- context [insert_single supabase ?d] =>
    specialize (Hrow d); destruct (insert_single supabase d) as [[row|] [e|]]
  end; cbn; try discriminate.
  destruct (Hrow row eq_refl) as [Hi Hc].
  rewrite !safeEnsureArray_normalized. cbn. intros [= <- _].
  split; cbn.
  - rewrite Hi, js_or_empty. apply primary_of_strings.
  - rewrite Hc, js_or_empty. apply primary_of_strings.
Qed.

Lemma updateUseCase_remote_consistent (id : string) (data : PartialFormData.t)
    (store store' : LocalStore) (u : UseCase.t) :
  (forall sent row, Reply.data (update_single supabase sent id) = Some row ->
                    consistent_row row) ->
  updateUseCase false supabase Date_toISOString id data store = (Ok u, store') ->
  primary_fields_consistent u.
Proof.
  intros Hrow. unfold updateUseCase. run_gateway.
  destruct (is_defined (PartialFormData.industries data));
    destruct (is_defined (PartialFormData.categories data));
    rewrite ?safeEnsureArray_normalized; cbn -[safeEnsureArray];
    match goal with |- context [update_single supabase ?d id] =>
      specialize (Hrow d); destruct (update_single supabase d id) as [[row|] [e|]]
    end; cbn -[safeEnsureArray]; try discriminate;
    destruct (Hrow row eq_refl) as [Hi Hc];
    rewrite !safeEnsureArray_normalized; cbn; intros [= <- _];
    (split; cbn;
     [rewrite Hi, js_or_empty | rewrite Hc, js_or_empty]; apply primary_of_strings).
Qed.

End RemoteRows.

(** ** The claims about the gateway *)

Section GatewayClaims.
Context {parser : JsonParser}.

(** C3, as amended. Every use case returned by [createUseCase] or
    [updateUseCase] on the local backend has [industry] equal to the first
    element of [industries] and [category] equal to the first element of
    [categories], the empty string standing for the first element of an empty
    list. [getUseCases] and [getUseCaseById] on the local backend return the
    stored scalars as they are, and their results have the property on every
    store the gateway built with its own operations. On the remote backend the
    use case built from a row has the property when the row's scalar columns
    agree with its normalized list columns. *)
Theorem primary_fields_of_returned_entities :
  (forall supabase iso now data store u store',
      createUseCase true supabase iso now data store = (Ok u, store') ->
      primary_fields_consistent u) /\
  (forall supabase iso id data store u store',
      updateUseCase true supabase iso id data store = (Ok u, store') ->
      primary_fields_consistent u) /\
  (forall supabase store,
      gateway_written store ->
      exists us, getUseCases true supabase store = (Ok us, store) /\
                 Forall primary_fields_consistent us) /\
  (forall supabase iso id store u store',
      gateway_written store ->
      getUseCaseById true supabase iso id store = (Ok (Some u), store') ->
      primary_fields_consistent u) /\
  (forall supabase store us store',
      (forall rows, Reply.data (select_all supabase) = Some rows ->
                    Forall consistent_row rows) ->
      getUseCases false supabase store = (Ok us, store') ->
      Forall primary_fields_consistent us) /\
  (forall supabase iso id store u store',
      (forall row, Reply.data (select_single supabase id) = Some row ->
                   consistent_row row) ->
      getUseCaseById false supabase iso id store = (Ok (Some u), store') ->
      primary_fields_consistent u) /\
  (forall supabase iso now data store u store',
      (forall sent row, Reply.data (insert_single supabase sent) = Some row ->
                        consistent_row row) ->
      createUseCase false supabase iso now data store = (Ok u, store') ->
      primary_fields_consistent u) /\
  (forall supabase iso id data store u store',
      (forall sent row, Reply.data (update_single supabase sent id) = Some row ->
                        consistent_row row) ->
      updateUseCase false supabase iso id data store = (Ok u, store') ->
      primary_fields_consistent u).
Proof.
  split; [|split; [|split; [|split; [|split; [|split; [|split]]]]]].
  - intros supabase iso now data store u store' Hop.
    apply createUseCase_local_effect in Hop.
    apply written_record_consistent, Hop.
  - intros supabase iso id data store u store' Hop.
    apply updateUseCase_local_effect in Hop.
    apply written_record_consistent, Hop.
  - intros supabase store Hwritten.
    apply gateway_written_records in Hwritten.
    exists store. split; [apply getUseCases_local_written; exact Hwritten|].
    eapply Forall_impl; [exact Hwritten | exact written_record_consistent].
  - intros supabase iso id store u store' Hwritten Hop.
    apply gateway_written_records in Hwritten.
    apply written_record_consistent.
    exact (getUseCaseById_local_written _ _ _ _ _ _ Hwritten Hop).
  - intros supabase store us store'. apply getUseCases_remote_consistent.
  - intros supabase iso id store u store'. apply getUseCaseById_remote_consistent.
  - intros supabase iso now data store u store'. apply createUseCase_remote_consistent.
  - intros supabase iso id data store u store'. apply updateUseCase_remote_consistent.
Qed.


(** C5. When a required field is missing from the form (title, description
    or content empty after trimming, industries or categories normalizing to
    the empty list), [createUseCase] raises the error that names the first
    missing field in the order of its checks, on either backend and whatever
    the remote store would answer, and the stored state is unchanged. *)
Theorem createUseCase_validation (data : UseCaseFormData.t) :
  (exists f, offending data f) ->
  exists f,
    offending data f /\
    (forall g, field_rank g < field_rank f -> ~ offending data g) /\
    forall useLocal supabase iso now store,
      createUseCase useLocal supabase iso now data store
      = (Throw (Error (required_message f)), store).
Proof.
  intros Hmissing.
  assert (Hdec : forall f, offending data f \/ ~ offending data f).
  { intros []; cbn;
      try (match goal with |- ?s = "" \/ _ =>
             destruct (String.eqb s "") eqn:E;
             [left; apply String.eqb_eq, E | right; apply String.eqb_neq, E] end);
      match goal with |- ?l = [] \/ _ => destruct l; [left|right]; congruence end. }
  assert (Hfirst : exists f, offending data f /\
             forall g, field_rank g < field_rank f -> ~ offending data g).
  { destruct (Hdec TitleField) as [Ht|Ht].
    { exists TitleField. split; [exact Ht|]. intros g Hg; cbn in Hg; lia. }
    destruct (Hdec DescriptionField) as [Hd|Hd].
    { exists DescriptionField. split; [exact Hd|].
      intros [] Hg; cbn in Hg; try lia; assumption. }
    destruct (Hdec ContentField) as [Hc|Hc].
    { exists ContentField. split; [exact Hc|].
      intros [] Hg; cbn in Hg; try lia; assumption. }
    destruct (Hdec IndustriesField) as [Hi|Hi].
    { exists IndustriesField. split; [exact Hi|].
      intros [] Hg; cbn in Hg; try lia; assumption. }
    destruct (Hdec CategoriesField) as [Hk|Hk].
    { exists CategoriesField. split; [exact Hk|].
      intros [] Hg; cbn in Hg; try lia; assumption. }
    destruct Hmissing as [[] Hf]; contradiction. }
  destruct Hfirst as (f & Hf & Hbefore).
  exists f. split; [exact Hf|]. split; [exact Hbefore|].
  intros useLocal supabase iso now store.
  apply createUseCase_rejects; assumption.
Qed.

End GatewayClaims.

Section LocalClaims.
Context {parser : JsonParser}.
Variable supabase : SupabaseClient.


(** On the local backend [updateUseCase] of an id that no stored record
    has raises the error with the message that the use case was not found
    and leaves the store as it is; [deleteUseCase] leaves the store as it is
    too, but the error it raises carries the message of the operation, the
    same a failure of the remote store gives. *)
Lemma nonexistent_id_errors (iso id : string) (data : PartialFormData.t)
    (store : LocalStore) :
  find_by_id id store = None ->
  updateUseCase true supabase iso id data store
  = (Throw (Error ("Use case with ID " ++ id ++ " not found")), store) /\
  deleteUseCase true supabase id store
  = (Throw (Error ("Failed to delete use case with ID " ++ id)), store) /\
  forall remote e,
    delete_eq remote id = Some e ->
    fst (deleteUseCase false remote id store)
    = fst (deleteUseCase true supabase id store).
Proof.
  intros Hnone. split; [|split].
  - apply updateUseCase_local_missing, Hnone.
  - apply deleteUseCase_local_missing, Hnone.
  - intros remote e He.
    rewrite (deleteUseCase_remote_failure remote id e store He).
    rewrite (deleteUseCase_local_missing supabase id store Hnone). reflexivity.
Qed.

(** C8. On the local backend [createUseCase] of a complete form whose
    lists are lists of strings stores, at the end of the list, and returns an
    entity with these lists, their first elements as [industry] and
    [category], the time of creation as [createdAt] and [updatedAt], and the
    placeholder image when the form has no image. *)
Theorem createUseCase_local_entity (iso : string) (now : Z)
    (data : UseCaseFormData.t) (store : LocalStore)
    (industry0 category0 : string) (industries' categories' : list string) :
  trim (UseCaseFormData.title data) <> "" ->
  trim (UseCaseFormData.description data) <> "" ->
  trim (UseCaseFormData.content data) <> "" ->
  UseCaseFormData.industries data = strings (industry0 :: industries') ->
  UseCaseFormData.categories data = strings (category0 :: categories') ->
  exists u,
    createUseCase true supabase iso now data store = (Ok u, (store ++ [u])%list) /\
    UseCase.industries u = strings (industry0 :: industries') /\
    UseCase.industry u = JStr industry0 /\
    UseCase.categories u = strings (category0 :: categories') /\
    UseCase.category u = JStr category0 /\
    UseCase.createdAt u = JStr iso /\
    UseCase.updatedAt u = JStr iso /\
    (UseCaseFormData.imageUrl data = "" ->
     UseCase.imageUrl u = JStr placeholder_image) /\
    (UseCaseFormData.imageUrl data <> "" ->
     UseCase.imageUrl u = JStr (UseCaseFormData.imageUrl data)).
Proof.
  intros Ht Hd Hc Hi Hk. eexists. split.
  { apply createUseCase_local_stores; try assumption.
    - rewrite Hi, normalized_strings. discriminate.
    - rewrite Hk, normalized_strings. discriminate. }
  cbn. rewrite Hi, Hk, !normalized_strings.
  do 6 (split; [reflexivity|]). unfold string_or. split.
  - intros ->. reflexivity.
  - intros Himg. apply string_eqb_empty in Himg. rewrite Himg. reflexivity.
Qed.

(** C10. The adapter returns the strings of a list as they are, without
    trimming them: a blank string stays, as an element and as a bare value.
    A form whose only industry is blank therefore passes the validation, and
    on the local backend the entity stored has the blank string as
    [industry]. *)
Theorem blank_industry_is_kept (label : string) :
  (forall l, safeEnsureArray (strings l) label = Ok l) /\
  safeEnsureArray (strings ["   "]) label = Ok ["   "] /\
  safeEnsureArray (JStr "   ") label = Ok ["   "] /\
  (forall iso now data store,
      trim (UseCaseFormData.title data) <> "" ->
      trim (UseCaseFormData.description data) <> "" ->
      trim (UseCaseFormData.content data) <> "" ->
      UseCaseFormData.industries data = strings ["   "] ->
      normalized (UseCaseFormData.categories data) <> [] ->
      exists u,
        createUseCase true supabase iso now data store = (Ok u, (store ++ [u])%list) /\
        UseCase.industries u = strings ["   "] /\
        UseCase.industry u = JStr "   ").
Proof.
  split; [intros l; apply safeEnsureArray_strings|].
  split; [apply safeEnsureArray_strings|].
  split; [reflexivity|].
  intros iso now data store Ht Hd Hc Hi Hk. eexists. split.
  { apply createUseCase_local_stores; try assumption.
    rewrite Hi, normalized_strings. discriminate. }
  cbn. rewrite Hi, normalized_strings. auto.
Qed.

End LocalClaims.

(** ** Closed instances *)

(** C7. At the id ["nonexistent-id"], on a local store that has no such
    record: [updateUseCase] raises the not-found error and [deleteUseCase]
    raises the error of the operation, which is also what it raises when the
    remote store fails; the store is unchanged in each case. *)
Theorem deleteUseCase_nonexistent_id :
  updateUseCase (parser := reference_parser) true unreachable_store later_time
    "nonexistent-id" new_categories [sample_use_case]
  = (Throw (Error "Use case with ID nonexistent-id not found"), [sample_use_case]) /\
  deleteUseCase true unreachable_store "nonexistent-id" [sample_use_case]
  = (Throw (Error "Failed to delete use case with ID nonexistent-id"),
     [sample_use_case]) /\
  deleteUseCase false unreachable_store "nonexistent-id" [sample_use_case]
  = (Throw (Error "Failed to delete use case with ID nonexistent-id"),
     [sample_use_case]).
Proof. repeat split. Qed.

(** C3, as the claim states it, fails: a stored record, and a row, whose
    scalar is not the first element of its list is returned with both as they
    are stored. *)
Lemma primary_fields_counterexample :
  exists u v,
    getUseCaseById (parser := reference_parser) true unreachable_store sample_time
      "u1" [mismatched_record] = (Ok (Some u), [mismatched_record]) /\
    UseCase.industry u = JStr "A" /\
    UseCase.industries u = JArr [JStr "B"; JStr "C"] /\
    ~ primary_fields_consistent u /\
    getUseCaseById (parser := reference_parser) false mismatched_remote sample_time
      "r1" [] = (Ok (Some v), []) /\
    UseCase.industry v = JStr "A" /\
    UseCase.industries v = JArr [JStr "B"; JStr "C"] /\
    ~ primary_fields_consistent v.
Proof.
  do 2 eexists.
  split; [reflexivity|]. split; [reflexivity|]. split; [reflexivity|].
  split; [intros [(l & Hl & Hfirst) _]; cbn in Hl, Hfirst;
          injection Hl as <-; discriminate|].
  split; [reflexivity|]. split; [reflexivity|]. split; [reflexivity|].
  intros [(l & Hl & Hfirst) _]; cbn in Hl, Hfirst.
  injection Hl as <-; discriminate.
Qed.

Lemma sample_store_written : gateway_written (parser := reference_parser) [sample_use_case].
Proof.
  apply (written_create (parser := reference_parser) unreachable_store sample_time
           sample_now sample_form [] (Ok sample_use_case)).
  - constructor.
  - reflexivity.
Defined.

Lemma primary_fields_witness :
  primary_fields_consistent sample_use_case /\
  Forall primary_fields_consistent [sample_use_case].
Proof.
  destruct (primary_fields_of_returned_entities (parser := reference_parser))
    as (_ & _ & _ & Hget & _ & _ & _ & _).
  assert (Hone : primary_fields_consistent sample_use_case).
  { apply (Hget unreachable_store sample_time "usecase_1714557600000"
             [sample_use_case] sample_use_case [sample_use_case]
             sample_store_written).
    reflexivity. }
  split; [exact Hone | constructor; [exact Hone | constructor]].
Defined.



Lemma createUseCase_validation_witness :
  (exists f, offending (parser := reference_parser) blank_title_form f) /\
  (exists f, offending (parser := reference_parser) no_industry_form f) /\
  (exists f,
      offending (parser := reference_parser) blank_title_form f /\
      (forall g, field_rank g < field_rank f ->
                 ~ offending (parser := reference_parser) blank_title_form g) /\
      forall useLocal supabase iso now store,
        createUseCase (parser := reference_parser) useLocal supabase iso now
          blank_title_form store
        = (Throw (Error (required_message f)), store)) /\
  (exists f,
      offending (parser := reference_parser) no_industry_form f /\
      (forall g, field_rank g < field_rank f ->
                 ~ offending (parser := reference_parser) no_industry_form g) /\
      forall useLocal supabase iso now store,
        createUseCase (parser := reference_parser) useLocal supabase iso now
          no_industry_form store
        = (Throw (Error (required_message f)), store)).
Proof.
  assert (Htitle : exists f, offending (parser := reference_parser) blank_title_form f)
    by (exists TitleField; reflexivity).
  assert (Hindustry : exists f, offending (parser := reference_parser) no_industry_form f)
    by (exists IndustriesField; reflexivity).
  split; [exact Htitle|]. split; [exact Hindustry|]. split.
  - exact (createUseCase_validation (parser := reference_parser) blank_title_form Htitle).
  - exact (createUseCase_validation (parser := reference_parser) no_industry_form Hindustry).
Defined.



Lemma createUseCase_local_entity_witness :
  exists u,
    createUseCase (parser := reference_parser) true unreachable_store sample_time
      sample_now sample_form [] = (Ok u, [u]) /\
    UseCase.industries u = strings ["Finance"; "Retail"] /\
    UseCase.industry u = JStr "Finance" /\
    UseCase.createdAt u = JStr sample_time /\
    UseCase.updatedAt u = JStr sample_time /\
    UseCase.imageUrl u = JStr placeholder_image.
Proof.
  destruct (createUseCase_local_entity (parser := reference_parser) unreachable_store
              sample_time sample_now sample_form []
              "Finance" "Old" ["Retail"] [])
    as (u & Hrun & Hi & Hi1 & _ & _ & Hc & Hu & Himg & _);
    try reflexivity; try (cbn; discriminate).
  exists u. repeat split; try assumption. apply Himg. reflexivity.
Defined.

Lemma blank_industry_is_kept_witness :
  safeEnsureArray (parser := reference_parser) (strings ["   "]) "create_industries"
  = Ok ["   "] /\
  exists u,
    createUseCase (parser := reference_parser) true unreachable_store sample_time
      sample_now blank_industry_form [] = (Ok u, [u]) /\
    UseCase.industry u = JStr "   ".
Proof.
  destruct (blank_industry_is_kept (parser := reference_parser) unreachable_store
              "create_industries") as (_ & Hlist & _ & Hcreate).
  split; [exact Hlist|].
  destruct (Hcreate sample_time sample_now blank_industry_form [])
    as (u & Hrun & _ & Hi); try reflexivity; try (cbn; discriminate).
  exists u. split; assumption.
Defined.

(** * Further properties of the gateway *)

(** Destructs the scrutinees of the goal, outermost first. *)
Ltac case_scrutinee :=
  match goal with
  | |- context [match ?x with _ => _ end] =>
      lazymatch x with
      | context [match _ with _ => _ end] => fail
      | _ => destruct x
      end
  end.

Section ReadFacts.
Context {parser : JsonParser}.
Variable supabase : SupabaseClient.
Variable Date_toISOString : string.

Lemma normalizeStored_view (useCase : UseCase.t) :
  normalizeStored useCase = Ok (stored_view useCase).
Proof.
  unfold normalizeStored, ensureArray, stored_view, or_legacy.
  rewrite !safeEnsureArray_normalized.
  destruct (normalized (UseCase.industries useCase));
    destruct (normalized (UseCase.categories useCase));
    reflexivity.
Qed.

Lemma mapM_normalizeStored (store : LocalStore) :
  mapM normalizeStored store = Ok (stored_view <$> store).
Proof.
  induction store as [|u store IH]; [reflexivity|].
  rewrite mapM_cons, normalizeStored_view, IH. reflexivity.
Qed.

Lemma getUseCases_local (store : LocalStore) :
  getUseCases true supabase store = (Ok (stored_view <$> store), store).
Proof.
  unfold getUseCases. run_gateway. rewrite mapM_normalizeStored. reflexivity.
Qed.

Lemma getUseCaseById_local (id : string) (store : LocalStore) :
  getUseCaseById true supabase Date_toISOString id store
  = (Ok (stored_view <$> (snd <$> find_by_id id store)), store).
Proof.
  destruct (find_by_id id store) as [[i useCase]|] eqn:Hfind.
  - rewrite (getUseCaseById_local_found _ _ _ _ _ _ Hfind). reflexivity.
  - rewrite (getUseCaseById_local_missing _ _ _ _ Hfind). reflexivity.
Qed.

Lemma find_by_id_view (id : string) (store : LocalStore) :
  find_by_id id (stored_view <$> store)
  = prod_map (fun i => i) stored_view <$> find_by_id id store.
Proof.
  unfold find_by_id. rewrite list_find_fmap. reflexivity.
Qed.

Lemma stored_view_written (u : UseCase.t) : written_record u -> stored_view u = u.
Proof.
  intros (li & lc & Hi & Hi1 & Hc & Hc1). unfold stored_view.
  rewrite Hi, Hc, Hi1, Hc1, !normalized_strings, !or_legacy_written.
  destruct u; cbn in *; congruence.
Qed.

End ReadFacts.

Section GatewayExtras.
Context {parser : JsonParser}.
Variable supabase : SupabaseClient.
Variable Date_toISOString : string.
Variable Date_now : Z.

(** X1. The reads never write to local storage, on either backend, and on
    the remote backend no operation does: whatever they return or raise, the
    local list is the one they started from. *)
Theorem local_store_untouched :
  (forall useLocal store, snd (getUseCases useLocal supabase store) = store) /\
  (forall useLocal id store,
      snd (getUseCaseById useLocal supabase Date_toISOString id store) = store) /\
  (forall data store,
      snd (createUseCase false supabase Date_toISOString Date_now data store) = store) /\
  (forall id data store,
      snd (updateUseCase false supabase Date_toISOString id data store) = store) /\
  (forall id store, snd (deleteUseCase false supabase id store) = store).
Proof.
  split; [|split; [|split; [|split]]].
  - intros [] store; [rewrite getUseCases_local; reflexivity|].
    unfold getUseCases. run_gateway.
    repeat case_scrutinee; reflexivity.
  - intros [] id store; [rewrite getUseCaseById_local; reflexivity|].
    unfold getUseCaseById. run_gateway.
    repeat case_scrutinee; reflexivity.
  - intros data store. unfold createUseCase. run_gateway.
    rewrite !safeEnsureArray_normalized.
    repeat case_scrutinee; reflexivity.
  - intros id data store. unfold updateUseCase. run_gateway.
    destruct (is_defined (PartialFormData.industries data));
      destruct (is_defined (PartialFormData.categories data));
      rewrite ?safeEnsureArray_normalized; cbn -[safeEnsureArray];
      repeat case_scrutinee; reflexivity.
  - intros id store. unfold deleteUseCase. run_gateway.
    repeat case_scrutinee; reflexivity.
Qed.

(** X2. On the local backend [getUseCases] cannot fail: it returns one entity
    per stored record, in the stored order, and [getUseCaseById] returns, for
    the first record with the id, the entity [getUseCases] has at that
    record's position; both find nothing for an id no record has. *)
Theorem local_reads_agree (id : string) (store : LocalStore) :
  exists us,
    getUseCases true supabase store = (Ok us, store) /\
    length us = length store /\
    match find_by_id id store with
    | Some (i, _) =>
        exists u,
          us !! i = Some u /\
          find_by_id id us = Some (i, u) /\
          getUseCaseById true supabase Date_toISOString id store = (Ok (Some u), store)
    | None =>
        find_by_id id us = None /\
        getUseCaseById true supabase Date_toISOString id store = (Ok None, store)
    end.
Proof.
  exists (stored_view <$> store).
  split; [apply getUseCases_local|]. split; [apply length_fmap|].
  rewrite getUseCaseById_local, find_by_id_view.
  destruct (find_by_id id store) as [[i useCase]|] eqn:Hfind; cbn.
  - exists (stored_view useCase). split; [|split; reflexivity].
    pose proof (find_by_id_lookup _ _ _ _ Hfind) as Hlook.
    unfold LocalStore in *. rewrite list_lookup_fmap, Hlook. reflexivity.
  - split; reflexivity.
Qed.

(** X3. What the local reads return for a stored record: its scalar fields
    as stored; as [industries], the normalized stored list when that is not
    empty, otherwise the stored [industry] alone when it is truthy, otherwise
    the empty list. *)
Theorem local_read_legacy_fallback (id : string) (store : LocalStore) (i : nat)
    (stored : UseCase.t) :
  find_by_id id store = Some (i, stored) ->
  exists u,
    getUseCaseById true supabase Date_toISOString id store = (Ok (Some u), store) /\
    UseCase.industry u = UseCase.industry stored /\
    (normalized (UseCase.industries stored) <> [] ->
     UseCase.industries u = strings (normalized (UseCase.industries stored))) /\
    (normalized (UseCase.industries stored) = [] ->
     truthy (UseCase.industry stored) = true ->
     UseCase.industries u = JArr [UseCase.industry stored]) /\
    (normalized (UseCase.industries stored) = [] ->
     truthy (UseCase.industry stored) = false ->
     UseCase.industries u = JArr []).
Proof.
  intros Hfind. eexists.
  split; [exact (getUseCaseById_local_found _ _ _ _ _ _ Hfind)|].
  cbn. unfold or_legacy. split; [reflexivity|].
  split; [|split].
  - destruct (normalized (UseCase.industries stored)); [congruence | reflexivity].
  - intros -> Htruthy. cbn. rewrite Htruthy. reflexivity.
  - intros -> Hfalsy. cbn. rewrite Hfalsy. reflexivity.
Qed.

Lemma createUseCase_local_result (data : UseCaseFormData.t)
    (store store' : LocalStore) (u : UseCase.t) :
  createUseCase true supabase Date_toISOString Date_now data store = (Ok u, store') ->
  UseCase.id u = JStr (local_id Date_now) /\
  written_record u /\
  store' = (store ++ [u])%list.
Proof.
  intros Hop. pose proof (createUseCase_local_effect _ _ _ _ _ _ _ Hop) as [Hw ->].
  split; [|split; [exact Hw | reflexivity]].
  revert Hop. unfold createUseCase. run_gateway.
  rewrite !safeEnsureArray_normalized.
  repeat case_scrutinee; try discriminate.
  intros [= <- _]. reflexivity.
Qed.

(** X4. On the local backend, after a successful [createUseCase] at a time
    whose id no stored record has, [getUseCaseById] of the returned entity's
    id returns that entity. *)
Theorem create_then_get (iso' : string) (data : UseCaseFormData.t)
    (store store' : LocalStore) (u : UseCase.t) :
  find_by_id (local_id Date_now) store = None ->
  createUseCase true supabase Date_toISOString Date_now data store = (Ok u, store') ->
  UseCase.id u = JStr (local_id Date_now) /\
  getUseCaseById true supabase iso' (local_id Date_now) store' = (Ok (Some u), store').
Proof.
  intros Hfresh Hop.
  destruct (createUseCase_local_result _ _ _ _ Hop) as (Hid & Hw & ->).
  split; [exact Hid|].
  rewrite getUseCaseById_local. unfold find_by_id in *.
  rewrite (list_find_app_r _ _ _ Hfresh). cbn.
  rewrite Hid. cbn. rewrite String.eqb_refl. cbn.
  destruct (decide True) as [_|Hno]; [|destruct Hno; exact I]. cbn.
  rewrite (stored_view_written _ Hw). reflexivity.
Qed.

(** X5. [createUseCase] does not check that the id it derives from the clock
    is free: when a stored record already has it, the new entity is stored
    with the same id at the end of the list, and lookups by this id keep
    finding the older record. *)
Theorem create_with_taken_id (iso' : string) (data : UseCaseFormData.t)
    (store store' : LocalStore) (u : UseCase.t) (i : nat) (older : UseCase.t) :
  find_by_id (local_id Date_now) store = Some (i, older) ->
  createUseCase true supabase Date_toISOString Date_now data store = (Ok u, store') ->
  store' = (store ++ [u])%list /\
  UseCase.id u = JStr (local_id Date_now) /\
  find_by_id (local_id Date_now) store' = Some (i, older) /\
  getUseCaseById true supabase iso' (local_id Date_now) store'
  = (Ok (Some (stored_view older)), store').
Proof.
  intros Htaken Hop.
  destruct (createUseCase_local_result _ _ _ _ Hop) as (Hid & Hw & ->).
  assert (Hfind : find_by_id (local_id Date_now) (store ++ [u])%list = Some (i, older))
    by (apply list_find_app_l, Htaken).
  repeat split; try assumption.
  rewrite getUseCaseById_local, Hfind. reflexivity.
Qed.

Lemma updateUseCase_local_result (id : string) (data : PartialFormData.t)
    (store store' : LocalStore) (u : UseCase.t) :
  updateUseCase true supabase Date_toISOString id data store = (Ok u, store') ->
  exists i old,
    find_by_id id store = Some (i, old) /\
    UseCase.id u = UseCase.id old /\
    written_record u /\
    store' = <[i := u]> store.
Proof.
  destruct (find_by_id id store) as [[i old]|] eqn:Hfind.
  - rewrite (updateUseCase_local_found _ _ _ _ _ _ _ Hfind). cbv zeta.
    intros [= <- <-]. exists i, old. split; [reflexivity|]. split; [reflexivity|].
    split; [|reflexivity]. do 2 eexists. cbn. repeat split.
  - rewrite (updateUseCase_local_missing _ _ _ _ _ Hfind). discriminate.
Qed.

Lemma find_by_id_insert (id : string) (store : LocalStore) (i : nat)
    (old u : UseCase.t) :
  find_by_id id store = Some (i, old) ->
  UseCase.id u = UseCase.id old ->
  find_by_id id (<[i := u]> store) = Some (i, u).
Proof.
  unfold find_by_id, LocalStore in *. intros Hfind Hid.
  apply list_find_Some in Hfind as (Hlook & Hold & Hbefore).
  apply list_find_Some. split; [|split].
  - apply list_lookup_insert_eq. eapply lookup_lt_Some, Hlook.
  - rewrite Hid. exact Hold.
  - intros j y Hj Hlt. rewrite list_lookup_insert_ne in Hj by lia.
    eapply Hbefore; eassumption.
Qed.

(** X6. On the local backend, after a successful [updateUseCase] of an id,
    [getUseCaseById] of that id returns the updated entity. *)
Theorem update_then_get (iso' id : string) (data : PartialFormData.t)
    (store store' : LocalStore) (u : UseCase.t) :
  updateUseCase true supabase Date_toISOString id data store = (Ok u, store') ->
  getUseCaseById true supabase iso' id store' = (Ok (Some u), store').
Proof.
  intros Hop.
  destruct (updateUseCase_local_result _ _ _ _ _ Hop) as (i & old & Hfind & Hid & Hw & ->).
  rewrite getUseCaseById_local, (find_by_id_insert _ _ _ _ _ Hfind Hid). cbn.
  rewrite (stored_view_written _ Hw). reflexivity.
Qed.

(** X7. A successful local [updateUseCase] replaces the first record that
    has the id and nothing else: the list keeps its length and every other
    position keeps its record, later records with the same id included. *)
Theorem update_changes_one_record (id : string) (data : PartialFormData.t)
    (store store' : LocalStore) (u : UseCase.t) :
  updateUseCase true supabase Date_toISOString id data store = (Ok u, store') ->
  exists i old,
    find_by_id id store = Some (i, old) /\
    store' !! i = Some u /\
    length store' = length store /\
    forall j, j <> i -> store' !! j = store !! j.
Proof.
  intros Hop.
  destruct (updateUseCase_local_result _ _ _ _ _ Hop) as (i & old & Hfind & _ & _ & ->).
  exists i, old. split; [exact Hfind|]. split; [|split].
  - apply list_lookup_insert_eq. eapply lookup_lt_Some, find_by_id_lookup, Hfind.
  - apply length_insert.
  - intros j Hj. apply list_lookup_insert_ne. congruence.
Qed.

Lemma without_id_shorter (id : string) (store : LocalStore) i u :
  find_by_id id store = Some (i, u) ->
  Nat.eqb (length store) (length (without_id id store)) = false.
Proof.
  unfold find_by_id, without_id. intros Hfind.
  apply list_find_Some in Hfind as (Hlook & Hu & _).
  apply Nat.eqb_neq. revert i Hlook.
  induction store as [|v store IH]; intros i Hlook; [discriminate|].
  pose proof (List.filter_length_le
                (fun useCase => negb (strict_eq_string (UseCase.id useCase) id)) store)
    as Hle.
  cbn [List.filter]. destruct i as [|i]; cbn in Hlook.
  - injection Hlook as ->. destruct (strict_eq_string (UseCase.id u) id); [|contradiction].
    cbn. lia.
  - destruct (negb (strict_eq_string (UseCase.id v) id)); cbn.
    + specialize (IH i Hlook). lia.
    + lia.
Qed.

(** X8. Local [deleteUseCase] succeeds exactly when a record has the id. It
    then removes every record with this id and keeps the others, in their
    order; otherwise it raises and keeps the list. *)
Theorem delete_removes_every_match (id : string) (store : LocalStore) :
  match find_by_id id store with
  | Some _ => deleteUseCase true supabase id store = (Ok tt, without_id id store)
  | None =>
      deleteUseCase true supabase id store
      = (Throw (Error ("Failed to delete use case with ID " ++ id)), store)
  end /\
  find_by_id id (without_id id store) = None /\
  sublist (without_id id store) store /\
  forall u, u ∈ without_id id store <->
            u ∈ store /\ strict_eq_string (UseCase.id u) id = false.
Proof.
  split; [|split; [|split]].
  - destruct (find_by_id id store) as [[i u]|] eqn:Hfind.
    + unfold deleteUseCase. run_gateway. fold (without_id id store).
      rewrite (without_id_shorter _ _ _ _ Hfind). reflexivity.
    + apply deleteUseCase_local_missing, Hfind.
  - apply find_by_id_without_id.
  - unfold without_id. induction store as [|v store IH]; cbn; [constructor|].
    destruct (negb (strict_eq_string (UseCase.id v) id));
      [apply sublist_skip | apply sublist_cons]; exact IH.
  - intros u. unfold without_id. rewrite !list_elem_of_In, List.filter_In.
    rewrite negb_true_iff. reflexivity.
Qed.

(** X9. After a successful local [deleteUseCase] of an id, deleting it again
    raises the error of the operation and updating it raises the not-found
    error; the list stays as the first deletion left it. *)
Theorem delete_then_delete_or_update (iso' id : string) (data : PartialFormData.t)
    (store store' : LocalStore) :
  deleteUseCase true supabase id store = (Ok tt, store') ->
  deleteUseCase true supabase id store'
  = (Throw (Error ("Failed to delete use case with ID " ++ id)), store') /\
  updateUseCase true supabase iso' id data store'
  = (Throw (Error ("Use case with ID " ++ id ++ " not found")), store').
Proof.
  intros Hdel. apply deleteUseCase_local_effect in Hdel. subst store'.
  split.
  - apply deleteUseCase_local_missing, find_by_id_without_id.
  - apply updateUseCase_local_missing, find_by_id_without_id.
Qed.

(** X10. What each operation raises when the remote store reports an error:
    [createUseCase] and [updateUseCase] keep the store's message after the
    name of the operation; [getUseCases], [getUseCaseById] and
    [deleteUseCase] raise the fixed message of the operation, without it. *)
Theorem remote_failures_are_wrapped (e : string) :
  (forall store,
      Reply.error (select_all supabase) = Some e ->
      getUseCases false supabase store
      = (Throw (Error "Failed to fetch use cases"), store)) /\
  (forall id store,
      Reply.error (select_single supabase id) = Some e ->
      getUseCaseById false supabase Date_toISOString id store
      = (Throw (Error ("Failed to fetch use case with ID " ++ id)), store)) /\
  (forall data store,
      (forall f, ~ offending data f) ->
      (forall sent, Reply.error (insert_single supabase sent) = Some e) ->
      createUseCase false supabase Date_toISOString Date_now data store
      = (Throw (Error ("Failed to create use case: " ++ e)), store)) /\
  (forall id data store,
      (forall sent, Reply.error (update_single supabase sent id) = Some e) ->
      updateUseCase false supabase Date_toISOString id data store
      = (Throw (Error ("Failed to update use case: " ++ e)), store)) /\
  (forall id store,
      delete_eq supabase id = Some e ->
      deleteUseCase false supabase id store
      = (Throw (Error ("Failed to delete use case with ID " ++ id)), store)).
Proof.
  split; [|split; [|split; [|split]]].
  - intros store He. unfold getUseCases. run_gateway. rewrite He. reflexivity.
  - intros id store He. unfold getUseCaseById. run_gateway. rewrite He. reflexivity.
  - intros data store Hvalid He. unfold createUseCase. run_gateway.
    rewrite !safeEnsureArray_normalized.
    pose proof (Hvalid TitleField) as Ht. pose proof (Hvalid DescriptionField) as Hd.
    pose proof (Hvalid ContentField) as Hc. pose proof (Hvalid IndustriesField) as Hi.
    pose proof (Hvalid CategoriesField) as Hk. cbn in Ht, Hd, Hc, Hi, Hk.
    apply string_eqb_empty in Ht, Hd, Hc. apply length_eqb_0 in Hi, Hk.
    rewrite Ht, Hd, Hc, Hi, Hk, He. reflexivity.
  - intros id data store He. unfold updateUseCase. run_gateway.
    destruct (is_defined (PartialFormData.industries data));
      destruct (is_defined (PartialFormData.categories data));
      rewrite ?safeEnsureArray_normalized; cbn -[safeEnsureArray];
      rewrite He; reflexivity.
  - intros id store. apply deleteUseCase_remote_failure.
Qed.

(** X11. The two remote reads treat a row without list differently. For a
    row whose [industries] column normalizes to the empty list and whose
    [industry] column is a non-empty string, [getUseCases] returns that
    string as the only element of [industries], and [getUseCaseById] returns
    the empty list beside the same [industry]. *)
Theorem remote_reads_differ_on_legacy_rows (id : string) (store : LocalStore)
    (row : DbRow.t) (s : string) :
  select_all supabase = Reply.Build (Some [row]) None ->
  select_single supabase id = Reply.Build (Some row) None ->
  DbRow.industry row = JStr s ->
  s <> "" ->
  normalized (DbRow.industries row) = [] ->
  exists listed fetched,
    getUseCases false supabase store = (Ok [listed], store) /\
    getUseCaseById false supabase Date_toISOString id store
    = (Ok (Some fetched), store) /\
    UseCase.industry listed = JStr s /\
    UseCase.industries listed = JArr [JStr s] /\
    UseCase.industry fetched = JStr s /\
    UseCase.industries fetched = JArr [].
Proof.
  intros Hall Hone Hscalar Hs Hnone. apply string_eqb_empty in Hs.
  assert (Htruthy : truthy (JStr s) = true) by (cbn; rewrite Hs; reflexivity).
  do 2 eexists. split; [|split].
  - unfold getUseCases. run_gateway. rewrite Hall. cbn -[rowToListed mapM].
    rewrite mapM_cons. unfold rowToListed, ensureArray.
    rewrite !safeEnsureArray_normalized, Hnone, Hscalar. cbn -[js_or truthy].
    rewrite Htruthy. cbn -[js_or truthy]. reflexivity.
  - unfold getUseCaseById. run_gateway. rewrite Hone. cbn -[rowToFetched].
    unfold rowToFetched. rewrite !safeEnsureArray_normalized, Hnone, Hscalar.
    cbn -[js_or truthy]. reflexivity.
  - cbn -[truthy]. unfold js_or. rewrite Htruthy. auto.
Qed.

End GatewayExtras.

(** * Further properties of the adapter *)

Lemma join_items_map_String (items : list JsValue) (ss : list string) :
  join_items items = Ok ss -> exists strs, map_String items = Ok strs.
Proof.
  unfold map_String. revert ss.
  induction items as [|x rest IH]; intros ss Hjoin; [eexists; reflexivity|].
  cbn [join_items] in Hjoin. unfold mbind, Result_bind in Hjoin.
  rewrite mapM_cons.
  destruct (js_String x) as [s|e] eqn:Hx.
  - destruct (join_items rest) as [ss'|e] eqn:Hrest.
    + destruct (IH _ eq_refl) as [strs ->]. eexists. reflexivity.
    + match type of Hjoin with match ?m with _ => _ end = _ => destruct m end;
        discriminate.
  - destruct x; first [discriminate Hx | discriminate Hjoin].
Qed.

Lemma map_String_length (items : list JsValue) (strs : list string) :
  map_String items = Ok strs -> length strs = length items.
Proof.
  intros Hmap. apply mapM_Ok_Forall2 in Hmap.
  symmetry. eapply Forall2_length, Hmap.
Qed.

Section NormalizationExtras.
Context {parser : JsonParser}.

Lemma normalized_array (items : list JsValue) :
  normalized (JArr items)
  = match map_String items with Ok strs => strs | Throw _ => [] end.
Proof.
  unfold normalized, ensureArray, safeEnsureArray, safeEnsureArray_try, debugValue.
  rewrite js_String_JArr.
  destruct (join_items items) as [ss|e] eqn:Hjoin.
  - destruct (join_items_map_String _ _ Hjoin) as [strs Hmap].
    cbn -[map_String]. rewrite Hmap. reflexivity.
  - cbn -[map_String]. destruct (map_String items) as [strs|e'] eqn:Hmap; [|reflexivity].
    destruct (map_String_join_items _ _ Hmap) as [ss Hss]. congruence.
Qed.

(** X12. The adapter returns the empty list for exactly these values: null,
    undefined, the empty array, a value on which [String] raises, and a
    string between brackets that parses as the empty JSON array. These are
    the [industries] and [categories] that [createUseCase] rejects. *)
Theorem normalized_empty_iff (v : JsValue) (label : string) :
  safeEnsureArray v label = Ok [] <->
  v = JNull \/ v = JUndefined \/ v = JArr [] \/
  (exists e, js_String v = Throw e) \/
  (exists s, v = JStr s /\
             startsWith (trim s) "[" && endsWith (trim s) "]" = true /\
             JSON_parse s = Ok (JArr [])).
Proof.
  rewrite safeEnsureArray_normalized. split.
  - intros Hempty. assert (Hnil : normalized v = []) by congruence. clear Hempty.
    destruct v as [| |b|n|s|items|props]; auto.
    + destruct b; discriminate.
    + discriminate.
    + revert Hnil. unfold normalized, ensureArray, safeEnsureArray, safeEnsureArray_try.
      cbn -[map_String].
      destruct (startsWith (trim s) "[" && endsWith (trim s) "]") eqn:Hb;
        [|discriminate].
      destruct (JSON_parse s) as [[| | | | |parsed|]|e] eqn:Hparse; cbn -[map_String];
        try discriminate.
      destruct (map_String parsed) as [strs|e] eqn:Hmap; cbn; [|discriminate].
      intros ->. apply map_String_length in Hmap.
      destruct parsed; [|discriminate].
      do 4 right. exists s. auto.
    + rewrite normalized_array in Hnil.
      destruct (map_String items) as [strs|e] eqn:Hmap.
      * subst strs. apply map_String_length in Hmap.
        destruct items; [auto | discriminate].
      * do 3 right. left. rewrite js_String_JArr.
        destruct (join_items items) as [ss|e'] eqn:Hjoin; [|eexists; reflexivity].
        destruct (join_items_map_String _ _ Hjoin) as [strs Hstrs]. congruence.
    + revert Hnil. unfold normalized, ensureArray, safeEnsureArray, safeEnsureArray_try,
        debugValue.
      destruct (js_String (JObj props)) as [str|e] eqn:Hstr; [discriminate|].
      intros _. do 3 right. left. eexists. reflexivity.
  - intros [->|[->|[->|[[e He]|(s & -> & Hb & Hparse)]]]]; try reflexivity.
    + f_equal. unfold normalized, ensureArray, safeEnsureArray, safeEnsureArray_try,
        debugValue.
      rewrite He. reflexivity.
    + f_equal. unfold normalized, ensureArray, safeEnsureArray, safeEnsureArray_try.
      cbn -[map_String]. rewrite Hb, Hparse. reflexivity.
Qed.

End NormalizationExtras.

(** * Slugs *)

(** Checks a fact about every character by running through them. *)
Ltac each_character c :=
  destruct c as [[] [] [] [] [] [] [] []]; vm_compute;
  repeat (let H := fresh in intros H; try discriminate H); reflexivity.

Lemma toLowerCase_char_space (c : ascii) :
  is_white_space (toLowerCase_char c) = is_white_space c.
Proof. each_character c. Qed.

Lemma toLowerCase_char_word (c : ascii) :
  is_word_char (toLowerCase_char c) = true ->
  is_slug_char (toLowerCase_char c) = true.
Proof. each_character c. Qed.

Lemma toLowerCase_char_not_hyphen (c : ascii) :
  is_word_char (toLowerCase_char c) || is_white_space (toLowerCase_char c) = true ->
  is_hyphen (toLowerCase_char c) = false.
Proof. each_character c. Qed.

Lemma toLowerCase_char_id (c : ascii) :
  is_slug_char c = true -> toLowerCase_char c = c.
Proof. each_character c. Qed.

Lemma slug_char_kept (c : ascii) :
  is_slug_char c = true -> is_hyphen c = false ->
  is_word_char c = true /\ is_white_space c = false.
Proof.
  destruct c as [[] [] [] [] [] [] [] []]; vm_compute;
    intros H1 H2; try discriminate H1; try discriminate H2; split; reflexivity.
Qed.

Lemma remove_punctuation_lowered (s : string) :
  string_all lowered_kept (remove_punctuation (toLowerCase s)) = true.
Proof.
  induction s as [|c s IH]; [reflexivity|].
  cbn [toLowerCase remove_punctuation].
  destruct (is_word_char (toLowerCase_char c) || is_white_space (toLowerCase_char c))
    eqn:Hkeep; [|exact IH].
  cbn [string_all]. rewrite IH, andb_true_r. unfold lowered_kept.
  rewrite (toLowerCase_char_not_hyphen _ Hkeep). cbn.
  apply orb_true_iff in Hkeep as [Hword|Hspace].
  - rewrite (toLowerCase_char_word _ Hword). reflexivity.
  - rewrite Hspace. apply orb_true_r.
Qed.

Lemma dash_spaces_slug (s : string) (in_run : bool) :
  string_all lowered_kept s = true ->
  string_all is_slug_char (dash_spaces in_run s) = true.
Proof.
  revert in_run. induction s as [|c s IH]; intros in_run Hall; [reflexivity|].
  cbn [string_all] in Hall. apply andb_true_iff in Hall as [Hc Hs].
  cbn [dash_spaces]. destruct (is_white_space c) eqn:Hspace.
  - destruct in_run; [apply IH, Hs|]. cbn [string_all]. rewrite (IH _ Hs). reflexivity.
  - cbn [string_all]. rewrite (IH _ Hs), andb_true_r.
    unfold lowered_kept in Hc. rewrite Hspace, orb_false_r in Hc.
    apply andb_true_iff in Hc. tauto.
Qed.

Lemma dash_spaces_no_double (s : string) (in_run : bool) :
  string_all lowered_kept s = true ->
  has_double_hyphen (dash_spaces in_run s) = false /\
  (in_run = true -> no_leading_hyphen (dash_spaces in_run s) = true).
Proof.
  revert in_run. induction s as [|c s IH]; intros in_run Hall; [split; reflexivity|].
  cbn [string_all] in Hall. apply andb_true_iff in Hall as [Hc Hs].
  cbn [dash_spaces]. destruct (is_white_space c) eqn:Hspace.
  - destruct in_run.
    + apply IH, Hs.
    + destruct (IH true Hs) as [Hdouble Hlead]. specialize (Hlead eq_refl).
      split; [|discriminate].
      cbn [has_double_hyphen]. destruct (dash_spaces true s) as [|b rest]; [reflexivity|].
      cbn in Hlead. apply negb_true_iff in Hlead. rewrite Hlead, andb_false_r.
      exact Hdouble.
  - unfold lowered_kept in Hc. rewrite Hspace, orb_false_r in Hc.
    apply andb_true_iff in Hc as [_ Hnot]. apply negb_true_iff in Hnot.
    destruct (IH false Hs) as [Hdouble _]. split.
    + cbn [has_double_hyphen]. destruct (dash_spaces false s) as [|b rest]; [reflexivity|].
      rewrite Hnot. exact Hdouble.
    + intros _. cbn. rewrite Hnot. reflexivity.
Qed.

Lemma dash_spaces_no_space (s : string) :
  string_all (fun c => negb (is_white_space c)) s = true ->
  dash_spaces false s = s.
Proof.
  induction s as [|c s IH]; [reflexivity|].
  cbn [string_all dash_spaces]. intros Hall.
  apply andb_true_iff in Hall as [Hc Hs]. apply negb_true_iff in Hc.
  rewrite Hc, (IH Hs). reflexivity.
Qed.

Lemma remove_punctuation_no_space (s : string) :
  string_all (fun c => negb (is_white_space c)) s = true ->
  string_all (fun c => negb (is_white_space c)) (remove_punctuation (toLowerCase s))
  = true.
Proof.
  induction s as [|c s IH]; [reflexivity|].
  cbn [string_all toLowerCase remove_punctuation]. intros Hall.
  apply andb_true_iff in Hall as [Hc Hs].
  destruct (is_word_char (toLowerCase_char c) || is_white_space (toLowerCase_char c));
    [|apply IH, Hs].
  cbn [string_all]. rewrite toLowerCase_char_space, Hc. apply IH, Hs.
Qed.

Lemma string_all_impl (p q : ascii -> bool) (s : string) :
  (forall c, p c = true -> q c = true) ->
  string_all p s = true -> string_all q s = true.
Proof.
  intros Hpq. induction s as [|c s IH]; [reflexivity|].
  cbn [string_all]. intros Hall. apply andb_true_iff in Hall as [Hc Hs].
  rewrite (Hpq _ Hc), (IH Hs). reflexivity.
Qed.

(** X13. A slug holds nothing but small letters of the basic alphabet,
    digits, underscores and hyphens, and never two hyphens in a row. *)
Theorem generateSlug_characters (title : string) :
  string_all is_slug_char (generateSlug title) = true /\
  has_double_hyphen (generateSlug title) = false.
Proof.
  unfold generateSlug. split.
  - apply dash_spaces_slug, remove_punctuation_lowered.
  - apply dash_spaces_no_double, remove_punctuation_lowered.
Qed.

(** X14. The hyphens of a slug stand for the white space of the title: the
    slug of a title without white space has no hyphen, the hyphens of the
    title being removed with the punctuation. *)
Theorem generateSlug_hyphens (title : string) :
  string_all (fun c => negb (is_white_space c)) title = true ->
  string_all (fun c => negb (is_hyphen c)) (generateSlug title) = true.
Proof.
  intros Hnospace. unfold generateSlug.
  rewrite (dash_spaces_no_space _ (remove_punctuation_no_space _ Hnospace)).
  eapply string_all_impl; [|apply remove_punctuation_lowered].
  intros c. unfold lowered_kept.
  destruct (is_hyphen c) eqn:Hh; [|reflexivity].
  rewrite andb_false_r. cbn.
  destruct c as [[] [] [] [] [] [] [] []]; vm_compute in Hh |- *;
    intros H; try discriminate H; discriminate Hh.
Qed.

(** X15. A title made of small letters of the basic alphabet, digits and
    underscores is its own slug. *)
Theorem generateSlug_fixed (title : string) :
  string_all (fun c => is_slug_char c && negb (is_hyphen c)) title = true ->
  generateSlug title = title.
Proof.
  intros Hall. unfold generateSlug.
  assert (Hsame : remove_punctuation (toLowerCase title) = title).
  { induction title as [|c s IH]; [reflexivity|].
    cbn [string_all] in Hall. apply andb_true_iff in Hall as [Hc Hs].
    apply andb_true_iff in Hc as [Hslug Hnot]. apply negb_true_iff in Hnot.
    cbn [toLowerCase remove_punctuation].
    rewrite (toLowerCase_char_id _ Hslug).
    destruct (slug_char_kept _ Hslug Hnot) as [-> _]. cbn. rewrite (IH Hs). reflexivity. }
  rewrite Hsame. apply dash_spaces_no_space.
  eapply string_all_impl; [|exact Hall].
  intros c Hc. apply andb_true_iff in Hc as [Hslug Hnot]. apply negb_true_iff in Hnot.
  destruct (slug_char_kept _ Hslug Hnot) as [_ ->]. reflexivity.
Qed.

(** * The slideshow *)

(** X16. With at least one slide and the index of a slide, [goToNext] and
    [goToPrevious] give the index of a slide again, wrapping around at both
    ends, and each undoes the other. *)
Theorem slideshow_index (length prev : Z) :
  (0 <= prev < length)%Z ->
  (0 <= Slideshow.goToNext length prev < length)%Z /\
  (0 <= Slideshow.goToPrevious length prev < length)%Z /\
  Slideshow.goToNext length (length - 1) = 0%Z /\
  Slideshow.goToPrevious length 0 = (length - 1)%Z /\
  Slideshow.goToPrevious length (Slideshow.goToNext length prev) = prev /\
  Slideshow.goToNext length (Slideshow.goToPrevious length prev) = prev.
Proof.
  intros Hrange. unfold Slideshow.goToNext, Slideshow.goToPrevious.
  assert (Hnext : Z.rem (prev + 1) length
                  = if Z.eqb prev (length - 1) then 0%Z else (prev + 1)%Z).
  { rewrite Z.rem_mod_nonneg by lia.
    destruct (Z.eqb_spec prev (length - 1)) as [->|Hne].
    - replace (length - 1 + 1)%Z with length by lia. rewrite Z.mod_same by lia; lia.
    - rewrite Z.mod_small by lia; lia. }
  assert (Hprev : Z.rem (prev - 1 + length) length
                  = if Z.eqb prev 0 then (length - 1)%Z else (prev - 1)%Z).
  { rewrite Z.rem_mod_nonneg by lia.
    destruct (Z.eqb_spec prev 0) as [->|Hne].
    - rewrite Z.mod_small by lia; lia.
    - replace (prev - 1 + length)%Z with (prev - 1 + 1 * length)%Z by lia.
      rewrite Z.mod_add by lia. rewrite Z.mod_small by lia; lia. }
  rewrite Hnext, Hprev.
  split; [destruct (Z.eqb_spec prev (length - 1)); lia|].
  split; [destruct (Z.eqb_spec prev 0); lia|].
  split.
  { rewrite Z.rem_mod_nonneg by lia.
    replace (length - 1 + 1)%Z with length by lia. rewrite Z.mod_same by lia; lia. }
  split.
  { rewrite Z.rem_mod_nonneg by lia. rewrite Z.mod_small by lia; lia. }
  split.
  - destruct (Z.eqb_spec prev (length - 1)) as [->|Hne].
    + rewrite Z.rem_mod_nonneg by lia. rewrite Z.mod_small by lia; lia.
    + rewrite Z.rem_mod_nonneg by lia.
      replace (prev + 1 - 1 + length)%Z with (prev + 1 * length)%Z by lia.
      rewrite Z.mod_add by lia. rewrite Z.mod_small by lia; lia.
  - destruct (Z.eqb_spec prev 0) as [->|Hne].
    + rewrite Z.rem_mod_nonneg by lia.
      replace (length - 1 + 1)%Z with length by lia. rewrite Z.mod_same by lia; lia.
    + rewrite Z.rem_mod_nonneg by lia.
      replace (prev - 1 + 1)%Z with prev by lia. rewrite Z.mod_small by lia; lia.
Qed.

Lemma goToNext_iterated (length prev : Z) (steps : nat) :
  (0 <= prev < length)%Z ->
  Nat.iter steps (Slideshow.goToNext length) prev
  = ((prev + Z.of_nat steps) mod length)%Z.
Proof.
  intros Hrange. induction steps as [|steps IH].
  - cbn. rewrite Z.add_0_r. symmetry. apply Z.mod_small. exact Hrange.
  - rewrite Nat.iter_succ, IH. unfold Slideshow.goToNext.
    pose proof (Z.mod_pos_bound (prev + Z.of_nat steps) length ltac:(lia)) as Hb.
    rewrite Z.rem_mod_nonneg by lia.
    rewrite Zplus_mod_idemp_l. f_equal. lia.
Qed.

(** X17. Going to the next slide as many times as there are slides, as the
    auto-play does, comes back to the slide it started from. *)
Theorem slideshow_full_cycle (length prev : Z) :
  (0 <= prev < length)%Z ->
  Nat.iter (Z.to_nat length) (Slideshow.goToNext length) prev = prev.
Proof.
  intros Hrange. rewrite (goToNext_iterated _ _ _ Hrange).
  rewrite Z2Nat.id by lia.
  replace (prev + length)%Z with (prev + 1 * length)%Z by lia.
  rewrite Z.mod_add by lia. apply Z.mod_small. exact Hrange.
Qed.

(** * The filters of the use-case pages *)

Lemma filter_sublist {A} (p : A -> bool) (l : list A) : sublist (List.filter p l) l.
Proof.
  induction l as [|x l IH]; cbn; [constructor|].
  destruct (p x); [apply sublist_skip | apply sublist_cons]; exact IH.
Qed.

Lemma filter_Forall {A} (P : A -> Prop) (p : A -> bool) (l : list A) :
  Forall P l -> Forall P (List.filter p l).
Proof.
  induction 1 as [|x l Hx _ IH]; cbn; [constructor|].
  destruct (p x); [constructor|]; assumption.
Qed.

Lemma selectedNames_cleared (type : FilterType) (filters : list FilterOption.t) :
  Forall (fun f => FilterOption.isSelected f = false) filters ->
  selectedNames type filters = [].
Proof.
  unfold selectedNames. induction 1 as [|f filters Hf _ IH]; [reflexivity|].
  cbn. rewrite Hf, andb_false_r. exact IH.
Qed.

Lemma clearAllFilters_cleared (filters : list FilterOption.t) :
  Forall (fun f => FilterOption.isSelected f = false) (Hero.clearAllFilters filters).
Proof.
  unfold Hero.clearAllFilters. induction filters; cbn; constructor; auto.
Qed.

(** X18. The cards [hero.tsx] shows are cards it loaded, in their order;
    when no option is selected, as after [clearAllFilters], they are all
    shown; when an industry is selected, a card without list of industries is
    not shown. *)
Theorem hero_filtered (filters : list FilterOption.t) (useCases : list Card.t) :
  sublist (Hero.filteredUseCases filters useCases) useCases /\
  Hero.filteredUseCases (Hero.clearAllFilters filters) useCases = useCases /\
  (Forall (fun f => FilterOption.isSelected f = false) filters ->
   Hero.filteredUseCases filters useCases = useCases) /\
  (selectedNames IndustryFilter filters <> [] ->
   Forall (fun useCase => Card.industries useCase <> None)
     (Hero.filteredUseCases filters useCases)).
Proof.
  assert (Hnone : forall fs, Forall (fun f => FilterOption.isSelected f = false) fs ->
                             Hero.filteredUseCases fs useCases = useCases).
  { intros fs Hfs. unfold Hero.filteredUseCases.
    rewrite !(selectedNames_cleared _ _ Hfs). reflexivity. }
  split; [|split; [|split]].
  - unfold Hero.filteredUseCases.
    destruct (_ && _); [reflexivity | apply filter_sublist].
  - apply Hnone, clearAllFilters_cleared.
  - apply Hnone.
  - intros Hsome. unfold Hero.filteredUseCases.
    destruct (selectedNames IndustryFilter filters) as [|x xs] eqn:Hsel; [congruence|].
    cbn [length Nat.eqb andb orb].
    apply Forall_forall. intros useCase Hin.
    apply list_elem_of_In, List.filter_In in Hin as [_ Hshown].
    apply andb_true_iff in Hshown as [Hshown _].
    destruct (Card.industries useCase); [discriminate | discriminate Hshown].
Qed.

(** X19. [toggleFilter] of [hero.tsx] goes by the name alone: it flips every
    option with this name, of either type, and leaves the others; names,
    types and order stay, and toggling twice gives the options back. *)
Theorem hero_toggle (filterName : string) (prev : list FilterOption.t) :
  Hero.toggleFilter filterName (Hero.toggleFilter filterName prev) = prev /\
  Forall2
    (fun before after =>
       FilterOption.name after = FilterOption.name before /\
       FilterOption.type after = FilterOption.type before /\
       FilterOption.isSelected after
       = if String.eqb (FilterOption.name before) filterName
         then negb (FilterOption.isSelected before)
         else FilterOption.isSelected before)
    prev (Hero.toggleFilter filterName prev).
Proof.
  unfold Hero.toggleFilter. split.
  - induction prev as [|f prev IH]; [reflexivity|].
    cbn in *. rewrite IH. f_equal.
    destruct f as [name type selected]; cbn.
    destruct (String.eqb name filterName) eqn:Hname; cbn; rewrite Hname;
      [rewrite negb_involutive|]; reflexivity.
  - induction prev as [|f prev IH]; cbn; constructor; [|exact IH].
    destruct (String.eqb (FilterOption.name f) filterName); cbn; auto.
Qed.

Lemma is_filter_other (name name' : string) (type type' : FilterType)
    (f : FilterOption.t) :
  (name', type') <> (name, type) ->
  UseCasesPage.is_filter name' type' f = true ->
  UseCasesPage.is_filter name type f = false.
Proof.
  unfold UseCasesPage.is_filter. intros Hne Hf.
  apply andb_true_iff in Hf as [Hn Ht]. apply String.eqb_eq in Hn.
  destruct (String.eqb (FilterOption.name f) name) eqn:Hn'; [|reflexivity].
  apply String.eqb_eq in Hn'.
  destruct (FilterOption.type f), type, type'; cbn in *;
    try reflexivity; try discriminate; exfalso; apply Hne; congruence.
Qed.

Lemma existsb_removeFilter (name name' : string) (type type' : FilterType)
    (prev : list FilterOption.t) :
  (name', type') <> (name, type) ->
  existsb (UseCasesPage.is_filter name' type') (UseCasesPage.removeFilter name type prev)
  = existsb (UseCasesPage.is_filter name' type') prev.
Proof.
  intros Hne. unfold UseCasesPage.removeFilter.
  induction prev as [|f prev IH]; [reflexivity|].
  cbn. destruct (UseCasesPage.is_filter name type f) eqn:Hf; cbn.
  - rewrite IH.
    destruct (UseCasesPage.is_filter name' type' f) eqn:Hf'; [|reflexivity].
    rewrite (is_filter_other _ _ _ _ _ Hne Hf') in Hf. discriminate.
  - rewrite IH. reflexivity.
Qed.

Lemma existsb_removeFilter_same (name : string) (type : FilterType)
    (prev : list FilterOption.t) :
  existsb (UseCasesPage.is_filter name type) (UseCasesPage.removeFilter name type prev)
  = false.
Proof.
  unfold UseCasesPage.removeFilter.
  induction prev as [|f prev IH]; [reflexivity|].
  cbn. destruct (UseCasesPage.is_filter name type f) eqn:Hf; cbn; [exact IH|].
  rewrite Hf. exact IH.
Qed.

Lemma find_existsb {A} (p : A -> bool) (l : list A) :
  existsb p l = match List.find p l with Some _ => true | None => false end.
Proof.
  induction l as [|x l IH]; [reflexivity|]. cbn. destruct (p x); [reflexivity | exact IH].
Qed.

Lemma removeFilter_absent (name : string) (type : FilterType)
    (prev : list FilterOption.t) :
  existsb (UseCasesPage.is_filter name type) prev = false ->
  UseCasesPage.removeFilter name type prev = prev.
Proof.
  unfold UseCasesPage.removeFilter.
  induction prev as [|f prev IH]; [reflexivity|].
  cbn. intros Hall. apply orb_false_iff in Hall as [Hf Hrest].
  rewrite Hf. cbn. rewrite (IH Hrest). reflexivity.
Qed.

(** X20. [toggleFilter] of [UseCasesSection.tsx] flips whether the list has
    an option of the name and type and changes this for no other name and
    type; it removes every such option or adds one that is selected, so a
    list of selected options stays one. *)
Theorem page_toggle (name : string) (type : FilterType) (prev : list FilterOption.t) :
  existsb (UseCasesPage.is_filter name type) (UseCasesPage.toggleFilter name type prev)
  = negb (existsb (UseCasesPage.is_filter name type) prev) /\
  (forall name' type',
      (name', type') <> (name, type) ->
      existsb (UseCasesPage.is_filter name' type')
        (UseCasesPage.toggleFilter name type prev)
      = existsb (UseCasesPage.is_filter name' type') prev) /\
  (Forall (fun f => FilterOption.isSelected f = true) prev ->
   Forall (fun f => FilterOption.isSelected f = true)
     (UseCasesPage.toggleFilter name type prev)).
Proof.
  unfold UseCasesPage.toggleFilter.
  rewrite (find_existsb (UseCasesPage.is_filter name type) prev).
  destruct (List.find (UseCasesPage.is_filter name type) prev) as [found|] eqn:Hfind.
  - fold (UseCasesPage.removeFilter name type prev). split; [|split].
    + apply existsb_removeFilter_same.
    + intros name' type' Hne. apply existsb_removeFilter, Hne.
    + intros Hall. apply filter_Forall, Hall.
  - assert (Habsent : existsb (UseCasesPage.is_filter name type) prev = false)
      by (rewrite find_existsb, Hfind; reflexivity).
    split; [|split].
    + rewrite existsb_app, Habsent. cbn. unfold UseCasesPage.is_filter. cbn.
      rewrite String.eqb_refl. destruct type; reflexivity.
    + intros name' type' Hne. rewrite existsb_app. cbn. rewrite orb_false_r.
      destruct (UseCasesPage.is_filter name' type'
                  (FilterOption.Build name type true)) eqn:Hnew;
        [|apply orb_false_r].
      exfalso. apply Hne. unfold UseCasesPage.is_filter in Hnew. cbn in Hnew.
      apply andb_true_iff in Hnew as [Hn Ht]. apply String.eqb_eq in Hn.
      destruct type, type'; cbn in Ht; try discriminate; congruence.
    + intros Hall. apply Forall_app. split; [exact Hall|]. repeat constructor.
Qed.

(** X21. Toggling an option that is not in the list twice gives the list
    back; toggling one that is in the list twice moves it to the end, as the
    only option of its name and type, and selected. [removeFilter] changes
    nothing when the option is not in the list. *)
Theorem page_toggle_twice (name : string) (type : FilterType)
    (prev : list FilterOption.t) :
  UseCasesPage.toggleFilter name type (UseCasesPage.toggleFilter name type prev)
  = (if existsb (UseCasesPage.is_filter name type) prev
     then (UseCasesPage.removeFilter name type prev
             ++ [FilterOption.Build name type true])%list
     else prev) /\
  (existsb (UseCasesPage.is_filter name type) prev = false ->
   UseCasesPage.removeFilter name type prev = prev).
Proof.
  split; [|apply removeFilter_absent].
  assert (Hnew : UseCasesPage.is_filter name type (FilterOption.Build name type true)
                 = true).
  { unfold UseCasesPage.is_filter. cbn. rewrite String.eqb_refl. destruct type; reflexivity. }
  destruct (existsb (UseCasesPage.is_filter name type) prev) eqn:Hin.
  - unfold UseCasesPage.toggleFilter at 2.
    rewrite find_existsb in Hin.
    destruct (List.find (UseCasesPage.is_filter name type) prev); [|discriminate].
    fold (UseCasesPage.removeFilter name type prev).
    unfold UseCasesPage.toggleFilter.
    pose proof (existsb_removeFilter_same name type prev) as Hgone.
    rewrite find_existsb in Hgone.
    destruct (List.find (UseCasesPage.is_filter name type)
                (UseCasesPage.removeFilter name type prev)); [discriminate|].
    reflexivity.
  - unfold UseCasesPage.toggleFilter at 2.
    pose proof Hin as Hfind. rewrite find_existsb in Hfind.
    destruct (List.find (UseCasesPage.is_filter name type) prev); [discriminate|].
    unfold UseCasesPage.toggleFilter.
    assert (Hthere : existsb (UseCasesPage.is_filter name type)
                       (prev ++ [FilterOption.Build name type true]) = true).
    { rewrite existsb_app. cbn. rewrite Hnew. apply orb_true_r. }
    rewrite find_existsb in Hthere.
    destruct (List.find (UseCasesPage.is_filter name type)
                (prev ++ [FilterOption.Build name type true])); [|discriminate].
    rewrite List.filter_app. cbn. rewrite Hnew. cbn. rewrite app_nil_r.
    apply removeFilter_absent, Hin.
Qed.

Lemma toLowerCase_char_idempotent (c : ascii) :
  toLowerCase_char (toLowerCase_char c) = toLowerCase_char c.
Proof. each_character c. Qed.

Lemma toLowerCase_idempotent (s : string) : toLowerCase (toLowerCase s) = toLowerCase s.
Proof.
  induction s as [|c s IH]; [reflexivity|].
  cbn. rewrite toLowerCase_char_idempotent, IH. reflexivity.
Qed.

Lemma toLowerCase_empty (s : string) :
  String.eqb (toLowerCase s) "" = String.eqb s "".
Proof. destruct s; reflexivity. Qed.

(** X22. [filterUseCases] gives cards of [defaultUseCases], in their order.
    Without search term and selected option it gives them all on the tab
    ["all"] and on a tab that names no industry and no solution type of
    theirs. As soon as an option is in [selectedFilters] the tab is not
    looked at. *)
Theorem page_filterUseCases (defaultUseCases : list Card.t) (searchTerm : string)
    (selectedFilters : list FilterOption.t) (activeTab : string) :
  sublist
    (UseCasesPage.filterUseCases defaultUseCases searchTerm selectedFilters activeTab)
    defaultUseCases /\
  UseCasesPage.filterUseCases defaultUseCases "" [] "all" = defaultUseCases /\
  (includes (UseCasesPage.industries defaultUseCases) activeTab = false ->
   includes (UseCasesPage.solutionTypes defaultUseCases) activeTab = false ->
   UseCasesPage.filterUseCases defaultUseCases "" [] activeTab = defaultUseCases) /\
  (selectedFilters <> [] ->
   forall otherTab,
     UseCasesPage.filterUseCases defaultUseCases searchTerm selectedFilters otherTab
     = UseCasesPage.filterUseCases defaultUseCases searchTerm selectedFilters activeTab).
Proof.
  split; [|split; [|split]].
  - unfold UseCasesPage.filterUseCases. cbv zeta.
    set (searched := if negb (String.eqb searchTerm "") then _ else _).
    assert (Hsearched : sublist searched defaultUseCases).
    { subst searched. destruct (negb _); [apply filter_sublist | reflexivity]. }
    clearbody searched.
    repeat match goal with
           | |- sublist (if ?b then _ else _) _ => destruct b
           | |- sublist (List.filter _ _) _ => etrans; [apply filter_sublist|]
           end; exact Hsearched.
  - reflexivity.
  - intros Hind Hsol. unfold UseCasesPage.filterUseCases. cbn.
    rewrite Hind, Hsol. destruct (negb (String.eqb activeTab "all")); reflexivity.
  - intros Hsome otherTab. unfold UseCasesPage.filterUseCases.
    destruct selectedFilters; [congruence | reflexivity].
Qed.

(** X23. The search of [filterUseCases] does not look at the case of the
    letters of the search term. *)
Theorem page_search_ignores_case (defaultUseCases : list Card.t) (searchTerm : string)
    (selectedFilters : list FilterOption.t) (activeTab : string) :
  UseCasesPage.filterUseCases defaultUseCases (toLowerCase searchTerm)
    selectedFilters activeTab
  = UseCasesPage.filterUseCases defaultUseCases searchTerm selectedFilters activeTab.
Proof.
  unfold UseCasesPage.filterUseCases, UseCasesPage.mentions.
  rewrite toLowerCase_empty, toLowerCase_idempotent. reflexivity.
Qed.

(** * Stores the gateway built *)

(** X24. What the gateway wrote to local storage is what it reads back: on
    a store built by its own operations [getUseCases] returns the stored
    records themselves, and [getUseCaseById] the first stored record with
    the id. *)
Theorem written_store_round_trip {parser : JsonParser} (supabase : SupabaseClient)
    (iso id : string) (store : LocalStore) :
  gateway_written store ->
  getUseCases true supabase store = (Ok store, store) /\
  getUseCaseById true supabase iso id store
  = (Ok (snd <$> find_by_id id store), store).
Proof.
  intros Hwritten. apply gateway_written_records in Hwritten. split.
  - rewrite getUseCases_local. f_equal. f_equal.
    induction Hwritten as [|u store Hu _ IH]; [reflexivity|].
    cbn. rewrite (stored_view_written _ Hu). f_equal. exact IH.
  - rewrite getUseCaseById_local. f_equal. f_equal.
    destruct (find_by_id id store) as [[i u]|] eqn:Hfind; [|reflexivity].
    cbn. f_equal. apply stored_view_written.
    apply find_by_id_lookup in Hfind.
    exact (Forall_lookup_1 _ _ _ _ Hwritten Hfind).
Qed.

(** * Closed instances of the further properties *)

Lemma local_read_legacy_fallback_witness :
  exists u,
    getUseCaseById (parser := reference_parser) true unreachable_store sample_time
      "old1" [legacy_record] = (Ok (Some u), [legacy_record]) /\
    UseCase.industry u = JStr "Finance" /\
    UseCase.industries u = JArr [JStr "Finance"].
Proof.
  destruct (local_read_legacy_fallback (parser := reference_parser) unreachable_store
              sample_time "old1" [legacy_record] 0 legacy_record eq_refl)
    as (u & Hrun & Hscalar & _ & Hfallback & _).
  exists u. split; [exact Hrun|]. split; [exact Hscalar|].
  apply Hfallback; reflexivity.
Defined.

Lemma create_then_get_witness :
  getUseCaseById (parser := reference_parser) true unreachable_store later_time
    (local_id sample_now) [sample_use_case]
  = (Ok (Some sample_use_case), [sample_use_case]).
Proof.
  exact (proj2 (create_then_get (parser := reference_parser) unreachable_store
                  sample_time sample_now later_time sample_form [] [sample_use_case]
                  sample_use_case eq_refl eq_refl)).
Defined.

Lemma create_with_taken_id_witness :
  exists u,
    createUseCase (parser := reference_parser) true unreachable_store later_time
      sample_now blank_industry_form [sample_use_case]
    = (Ok u, [sample_use_case; u]) /\
    UseCase.id u = UseCase.id sample_use_case /\
    UseCase.title u = JStr "Fraud detection" /\
    UseCase.industry u = JStr "   " /\
    find_by_id (local_id sample_now) [sample_use_case; u] = Some (0, sample_use_case).
Proof.
  eexists. split; [reflexivity|].
  destruct (create_with_taken_id (parser := reference_parser) unreachable_store
              later_time sample_now sample_time blank_industry_form [sample_use_case]
              _ _ 0 sample_use_case eq_refl eq_refl)
    as (_ & Hid & Hfind & _).
  split; [exact Hid|]. split; [reflexivity|]. split; [reflexivity|]. exact Hfind.
Defined.

Lemma update_then_get_witness :
  exists u,
    updateUseCase (parser := reference_parser) true unreachable_store later_time
      "usecase_1714557600000" new_categories [sample_use_case] = (Ok u, [u]) /\
    getUseCaseById (parser := reference_parser) true unreachable_store sample_time
      "usecase_1714557600000" [u] = (Ok (Some u), [u]).
Proof.
  eexists. split; [reflexivity|].
  exact (update_then_get (parser := reference_parser) unreachable_store later_time
           sample_time "usecase_1714557600000" new_categories [sample_use_case]
           _ _ eq_refl).
Defined.

Lemma update_changes_one_record_witness :
  exists u i old,
    updateUseCase (parser := reference_parser) true unreachable_store later_time
      "usecase_1714557600000" new_categories [legacy_record; sample_use_case]
    = (Ok u, [legacy_record; u]) /\
    find_by_id "usecase_1714557600000" [legacy_record; sample_use_case]
    = Some (i, old) /\
    [legacy_record; u] !! i = Some u /\
    forall j, j <> i -> [legacy_record; u] !! j = [legacy_record; sample_use_case] !! j.
Proof.
  eexists.
  destruct (update_changes_one_record (parser := reference_parser) unreachable_store
              later_time "usecase_1714557600000" new_categories
              [legacy_record; sample_use_case] _ _ eq_refl)
    as (i & old & Hfind & Hlook & _ & Hframe).
  exists i, old. split; [reflexivity|]. split; [exact Hfind|].
  split; [exact Hlook | exact Hframe].
Defined.

Lemma delete_then_delete_or_update_witness :
  deleteUseCase true unreachable_store "usecase_1714557600000" [sample_use_case]
  = (Ok tt, []) /\
  deleteUseCase true unreachable_store "usecase_1714557600000" []
  = (Throw (Error "Failed to delete use case with ID usecase_1714557600000"), []) /\
  updateUseCase (parser := reference_parser) true unreachable_store later_time
    "usecase_1714557600000" new_categories []
  = (Throw (Error "Use case with ID usecase_1714557600000 not found"), []).
Proof.
  split; [reflexivity|].
  exact (delete_then_delete_or_update (parser := reference_parser) unreachable_store
           later_time "usecase_1714557600000" new_categories
           [sample_use_case] [] eq_refl).
Defined.

Lemma remote_failures_are_wrapped_witness :
  getUseCases (parser := reference_parser) false unreachable_store []
  = (Throw (Error "Failed to fetch use cases"), []) /\
  createUseCase (parser := reference_parser) false unreachable_store sample_time
    sample_now sample_form []
  = (Throw (Error "Failed to create use case: network error"), []) /\
  updateUseCase (parser := reference_parser) false unreachable_store sample_time
    "r2" new_categories []
  = (Throw (Error "Failed to update use case: network error"), []).
Proof.
  destruct (remote_failures_are_wrapped (parser := reference_parser) unreachable_store
              sample_time sample_now "network error")
    as (Hlist & _ & Hcreate & Hupdate & _).
  split; [apply Hlist; reflexivity|]. split.
  - apply Hcreate; [|reflexivity]. intros []; cbn; discriminate.
  - apply Hupdate. reflexivity.
Defined.

Lemma remote_reads_differ_on_legacy_rows_witness :
  exists listed fetched,
    getUseCases (parser := reference_parser) false legacy_remote [] = (Ok [listed], []) /\
    getUseCaseById (parser := reference_parser) false legacy_remote sample_time "r3" []
    = (Ok (Some fetched), []) /\
    UseCase.industries listed = JArr [JStr "Finance"] /\
    UseCase.industries fetched = JArr [].
Proof.
  destruct (remote_reads_differ_on_legacy_rows (parser := reference_parser)
              legacy_remote sample_time "r3" [] legacy_row "Finance"
              eq_refl eq_refl eq_refl ltac:(discriminate) eq_refl)
    as (listed & fetched & Hlist & Hget & _ & Hl & _ & Hf).
  exists listed, fetched. auto.
Defined.

Lemma generateSlug_hyphens_witness :
  generateSlug "E-Commerce" = "ecommerce" /\
  string_all (fun c => negb (is_hyphen c)) (generateSlug "E-Commerce") = true.
Proof.
  split; [reflexivity|].
  exact (generateSlug_hyphens "E-Commerce" eq_refl).
Defined.

Lemma generateSlug_fixed_witness : generateSlug "use_case_42" = "use_case_42".
Proof. exact (generateSlug_fixed "use_case_42" eq_refl). Defined.

Lemma slideshow_index_witness :
  Slideshow.goToNext 3 2 = 0%Z /\ Slideshow.goToPrevious 3 0 = 2%Z /\
  Slideshow.goToPrevious 3 (Slideshow.goToNext 3 2) = 2%Z.
Proof.
  destruct (slideshow_index 3 2 ltac:(lia)) as (_ & _ & Hlast & Hfirst & Hback & _).
  split; [exact Hlast|]. split; [exact Hfirst | exact Hback].
Defined.

Lemma slideshow_full_cycle_witness :
  Nat.iter 3 (Slideshow.goToNext 3) 1%Z = 1%Z.
Proof. exact (slideshow_full_cycle 3 1 ltac:(lia)). Defined.

Lemma written_store_round_trip_witness :
  getUseCases (parser := reference_parser) true unreachable_store [sample_use_case]
  = (Ok [sample_use_case], [sample_use_case]) /\
  getUseCaseById (parser := reference_parser) true unreachable_store later_time
    "usecase_1714557600000" [sample_use_case]
  = (Ok (Some sample_use_case), [sample_use_case]).
Proof.
  exact (written_store_round_trip (parser := reference_parser) unreachable_store
           later_time "usecase_1714557600000" [sample_use_case] sample_store_written).
Defined.
